(** * Dual-layout animation engine: particle field and instanced ornaments

    Shallow embedding of the TypeScript sources [constants.ts], [types.ts],
    [components/Foliage.tsx] (with its GLSL vertex shader) and
    [components/Ornaments.tsx].

    Numbers: a JavaScript [number] and a GLSL [float] are modelled as a real
    number ([R]); every arithmetic operation is the exact one, so rounding,
    infinities and NaN are outside the model.  [Math.sin], [Math.cos],
    [Math.acos] and [Math.PI] are the functions of the standard library of
    reals; [Math.cbrt] is defined below.  [Math.random] reads the next
    element of a sequence of draws that is threaded through the generators. *)

From Stdlib Require Import Reals Lra Lia ZArith List.
From stdpp Require Import base list.

Open Scope R_scope.

(** ** constants.ts *)

Module TREE_CONFIG.
Definition HEIGHT : R := 9.
Definition RADIUS_BASE : R := 3.5.
#[warnings="-abstract-large-number"]
Definition PARTICLE_COUNT : nat := 15000.
Definition ORNAMENT_COUNT : nat := 450.
Definition SCATTER_RADIUS : R := 15.
End TREE_CONFIG.

Module ANIMATION_CONFIG.
Definition TRANSITION_SPEED : R := 2.0.
End ANIMATION_CONFIG.

(** ** types.ts *)

Inductive TreeState := SCATTERED | TREE_SHAPE.

Definition Vec3 : Type := R * R * R.

Inductive OrnamentType := box | sphere | star.

Module Types.
Record PositionData := {
  treePosition : Vec3;
  scatterPosition : Vec3;
  rotation : Vec3;
  scale : R;
  type : OrnamentType
}.
End Types.
Import Types.

(** ** The parts of JavaScript, three.js and GLSL that the sources call *)

Module Math.
(** [Math.floor] of a value used as a count. *)
Definition floor (x : R) : nat := Z.to_nat (Zfloor x).

(** [Math.cbrt]: the real cube root, odd in its argument. *)
Definition cbrt (x : R) : R :=
  if Rlt_dec 0 x then exp (ln x / 3)
  else if Rlt_dec x 0 then - exp (ln (- x) / 3)
  else 0.
End Math.

Module THREE.
(** [THREE.MathUtils.lerp(x, y, t)] is [(1 - t) * x + t * y]. *)
Module MathUtils.
Definition lerp (x y t : R) : R := (1 - t) * x + t * y.
End MathUtils.

(** The three vectors of an [Object3D] that the sources write. *)
Record Object3D := {
  position : Vec3;
  rotation : Vec3;
  scale : Vec3
}.

Definition setScalar (s : R) : Vec3 := (s, s, s).

(** [updateMatrix] composes the local matrix of an object from its
    position, rotation and scale; the matrix is kept as that triple. *)
Inductive Matrix4 := compose (p r s : Vec3).

Definition updateMatrix (o : Object3D) : Matrix4 :=
  compose (position o) (rotation o) (scale o).

Definition matrixPosition (m : Matrix4) : Vec3 :=
  match m with compose p _ _ => p end.

Definition matrixRotation (m : Matrix4) : Vec3 :=
  match m with compose _ r _ => r end.

Definition matrixScale (m : Matrix4) : Vec3 :=
  match m with compose _ _ s => s end.

(** An [InstancedMesh]: the ad-hoc [userData.progress] field (absent until
    first written), the instance matrices (one slot per instance) and the
    [instanceMatrix.needsUpdate] flag. *)
Record InstancedMesh := {
  userData_progress : option R;
  instanceMatrix : list Matrix4;
  needsUpdate : bool
}.

Definition identity : Matrix4 := compose (0, 0, 0) (0, 0, 0) (1, 1, 1).

(** [new InstancedMesh(geometry, material, count)]. *)
Definition newInstancedMesh (count : nat) : InstancedMesh :=
  {| userData_progress := None;
     instanceMatrix := replicate count identity;
     needsUpdate := false |}.

(** [setMatrixAt(i, m)] stores into the typed array behind the instance
    matrices; a store past the end of a typed array is dropped. *)
Definition setMatrixAt (i : nat) (m : Matrix4) (ms : list Matrix4)
  : list Matrix4 := <[i := m]> ms.
End THREE.

Module GLSL.
Definition clamp (x lo hi : R) : R := Rmin (Rmax x lo) hi.
Definition mix (x y a : R) : R := x * (1 - a) + y * a.
Definition mix3 (p q : Vec3) (a : R) : Vec3 :=
  let '(px, py, pz) := p in
  let '(qx, qy, qz) := q in
  (mix px qx a, mix py qy a, mix pz qz a).
End GLSL.

(** [array.forEach((d, i) => ...)] with the loop body acting on a state. *)
Fixpoint forEach {A St : Type} (f : St -> A -> nat -> St) (l : list A)
    (i : nat) (s : St) : St :=
  match l with
  | [] => s
  | d :: l' => forEach f l' (S i) (f s d i)
  end.

Definition targetProgressOf (treeState : TreeState) : R :=
  match treeState with TREE_SHAPE => 1.0 | SCATTERED => 0.0 end.

(** ** Math.random *)

(** A generator reads draws from a sequence, starting at a cursor, and
    returns the cursor after its last draw. *)
Definition Gen (A : Type) : Type := (nat -> R) -> nat -> A * nat.

Definition gret {A} (a : A) : Gen A := fun _ n => (a, n).

Definition gbind {A B} (g : Gen A) (k : A -> Gen B) : Gen B :=
  fun draws n => let '(a, n') := g draws n in k a draws n'.

Definition Math_random : Gen R := fun draws n => (draws n, S n).

Notation "'let*' x ':=' g 'in' k" := (gbind g (fun x => k))
  (at level 10, x name, g at level 100, k at level 200).

(** Every draw of [Math.random] is in [[0, 1)]. *)
Definition unit_draws (draws : nat -> R) : Prop :=
  forall n, 0 <= draws n < 1.

(** ** components/Foliage.tsx *)

Module Foliage.

(** *** Vertex shader *)

Definition easeInOutCubic (x : R) : R :=
  if Rlt_dec x 0.5 then 4.0 * x * x * x
  else 1.0 - (-2.0 * x + 2.0) ^ 3 / 2.0.

Definition localProgress (uProgress aRandom : R) : R :=
  GLSL.clamp (uProgress * 1.2 - aRandom * 0.2) 0.0 1.0.

Definition easedProgress (uProgress aRandom : R) : R :=
  easeInOutCubic (localProgress uProgress aRandom).

(** [vec3 pos = mix(aScatterPos, aTreePos, easedProgress)]. *)
Definition mixPos (uProgress : R) (aTreePos aScatterPos : Vec3)
    (aRandom : R) : Vec3 :=
  GLSL.mix3 aScatterPos aTreePos (easedProgress uProgress aRandom).

(** The position after the wind displacement of [x] and [z]. *)
Definition windPos (uTime uProgress : R) (aTreePos aScatterPos : Vec3)
    (aRandom : R) : Vec3 :=
  let '(px, py, pz) := mixPos uProgress aTreePos aScatterPos aRandom in
  let wind := sin (uTime * 2.0 + py * 2.0 + px) * 0.08
              * easedProgress uProgress aRandom in
  (px + wind, py, pz + wind).

(** *** Geometry data *)

(** One particle: its slots in [treePos], [scatterPos] and [rands]. *)
Record Particle := {
  aTreePos : Vec3;
  aScatterPos : Vec3;
  aRandom : R
}.

Definition rAtH (h : R) : R := TREE_CONFIG.RADIUS_BASE * (1 - h).

(** [r = (Math.random() * 0.3 + 0.7) * rAtH]. *)
Definition treeRadius (h q : R) : R := (q * 0.3 + 0.7) * rAtH h.

Definition treePoint (i : nat) (h a q : R) : Vec3 :=
  let y := h * TREE_CONFIG.HEIGHT in
  let angle := INR i * 0.1 + a * PI * 2 in
  let r := treeRadius h q in
  (cos angle * r, y, sin angle * r).

Definition scatterPoint (u v w : R) : Vec3 :=
  let theta := 2 * PI * u in
  let phi := acos (2 * v - 1) in
  let sr := Math.cbrt w * TREE_CONFIG.SCATTER_RADIUS in
  (sr * sin phi * cos theta,
   sr * sin phi * sin theta + TREE_CONFIG.HEIGHT / 2,
   sr * cos phi).

(** The body of the generation loop at index [i]. *)
Definition particle (i : nat) : Gen Particle :=
  let* h := Math_random in
  let* a := Math_random in
  let* q := Math_random in
  let* u := Math_random in
  let* v := Math_random in
  let* w := Math_random in
  let* s := Math_random in
  gret {| aTreePos := treePoint i h a q;
          aScatterPos := scatterPoint u v w;
          aRandom := s |}.

(** [for (let i = 0; i < count; i++)], [k] iterations left. *)
Fixpoint generateFrom (k i : nat) (acc : list Particle)
  : Gen (list Particle) :=
  match k with
  | O => gret acc
  | S k' => let* p := particle i in generateFrom k' (S i) (acc ++ [p])
  end.

Definition generate : Gen (list Particle) :=
  generateFrom TREE_CONFIG.PARTICLE_COUNT 0 [].

(** *** Per-frame update *)

Record ShaderMaterial := {
  uTime : R;
  uProgress : R
}.

Definition useFrame (treeState : TreeState) (elapsedTime delta : R)
    (materialRef : option ShaderMaterial) : option ShaderMaterial :=
  match materialRef with
  | Some m =>
      let targetProgress := targetProgressOf treeState in
      let currentProgress := uProgress m in
      let diff := targetProgress - currentProgress in
      Some {| uTime := elapsedTime;
              uProgress := uProgress m
                + diff * delta * ANIMATION_CONFIG.TRANSITION_SPEED |}
  | None => None
  end.

(** *** Vertex shader: size, transparency and colour *)

(** [gl_PointSize], from the seed and the view-space depth
    [mvPosition.z] that the model-view matrix gives the vertex. *)
Definition pointSize (aRandom mvz : R) : R :=
  (90.0 * aRandom + 50.0) * (1.0 / - mvz).

(** The varying [vAlpha]: the twinkle. *)
Definition vAlpha (uTime aRandom : R) : R :=
  0.8 + 0.2 * sin (uTime * 3.0 + aRandom * 10.0).

Definition heightFactor (y : R) : R := (y + 1.0) / 10.0.

Definition colorDeep : Vec3 := (0.0, 0.25, 0.1).
Definition colorLight : Vec3 := (0.1, 0.6, 0.3).

(** The varying [vColor], from [pos.y] and the seed. *)
Definition shade (y aRandom : R) : Vec3 :=
  let c := GLSL.mix3 colorDeep colorLight (heightFactor y) in
  if Rlt_dec 0.85 aRandom then GLSL.mix3 c (0.9, 0.9, 0.7) 0.7 else c.

Definition vColor (uTime uProgress : R) (aTreePos aScatterPos : Vec3)
    (aRandom : R) : Vec3 :=
  let '(_, py, _) := windPos uTime uProgress aTreePos aScatterPos aRandom in
  shade py aRandom.

(** *** Fragment shader *)

(** [gl_FragColor] for a fragment at [gl_PointCoord], or [None] when the
    fragment is discarded. *)
Definition fragment (pointCoord : R * R) (color : Vec3) (alpha : R)
  : option (Vec3 * R) :=
  let '(cx, cy) := pointCoord in
  let x := cx - 0.5 in
  let y := cy - 0.5 in
  let ll := sqrt (x * x + y * y) in
  if Rlt_dec 0.5 ll then None
  else
    let glow := 1.0 - ll * 2.0 in
    let glow := glow ^ 2 in
    Some (color, alpha * glow).

End Foliage.

(** ** components/Ornaments.tsx *)

Module Ornaments.
Import THREE.

(** *** Endpoint data *)

Definition treePoint (q1 q2 a : R) : Vec3 :=
  let h := q1 * (TREE_CONFIG.HEIGHT - 1.5) + 0.5 in
  let rAtH := TREE_CONFIG.RADIUS_BASE * (1 - h / TREE_CONFIG.HEIGHT) in
  let r := rAtH + 0.1 + q2 * 0.2 in
  let angle := a * PI * 2 in
  (cos angle * r, h, sin angle * r).

Definition scatterPoint (u v : R) : Vec3 :=
  let theta := 2 * PI * u in
  let phi := acos (2 * v - 1) in
  let sr := TREE_CONFIG.SCATTER_RADIUS * 0.9 in
  (sr * sin phi * cos theta,
   sr * sin phi * sin theta + TREE_CONFIG.HEIGHT / 2,
   sr * cos phi).

(** The body of the loop of [generateData]. *)
Definition ornament : Gen PositionData :=
  let* q1 := Math_random in
  let* q2 := Math_random in
  let* a := Math_random in
  let* u := Math_random in
  let* v := Math_random in
  let* r0 := Math_random in
  let* r1 := Math_random in
  let* s := Math_random in
  gret {| treePosition := treePoint q1 q2 a;
          scatterPosition := scatterPoint u v;
          Types.rotation := (r0 * PI, r1 * PI, 0);
          Types.scale := s * 0.3 + 0.2;
          type := box |}.

Fixpoint generateFrom (k : nat) (data : list PositionData)
  : Gen (list PositionData) :=
  match k with
  | O => gret data
  | S k' => let* d := ornament in generateFrom k' (data ++ [d])
  end.

Definition generateData (count : nat) : Gen (list PositionData) :=
  generateFrom count [].

(** *** animateMesh *)

(** [progress < 0.5 ? 4 * progress * progress * progress
                    : 1 - Math.pow(-2 * progress + 2, 3) / 2]. *)
Definition eased (progress : R) : R :=
  if Rlt_dec progress 0.5 then 4 * progress * progress * progress
  else 1 - (-2 * progress + 2) ^ 3 / 2.

(** One step of the integrator on the value read from [userData]. *)
Definition nextProgress (stored : option R) (delta targetProgress : R)
  : R :=
  let progress := default 0 stored in
  let diff := targetProgress - progress in
  progress + diff * delta * ANIMATION_CONFIG.TRANSITION_SPEED.

(** What the loop body leaves in [dummy] for element [d] at index [i]. *)
Definition dummyAt (e clockTime scaleMult : R) (wobble : bool)
    (d : PositionData) (i : nat) : Object3D :=
  let '(sx, sy, sz) := scatterPosition d in
  let '(tx, ty, tz) := treePosition d in
  let '(r0, r1, r2) := Types.rotation d in
  let floatFactor := 1.0 - e in
  {| position := (MathUtils.lerp sx tx e,
                  MathUtils.lerp sy ty e,
                  MathUtils.lerp sz tz e);
     rotation :=
       if wobble then
         let sway := sin (clockTime * 2 + INR i) * 0.1 in
         (MathUtils.lerp (r0 + clockTime) 0 e + sway,
          MathUtils.lerp (r1 + clockTime) r1 e,
          MathUtils.lerp (r2 + clockTime) 0 e + sway)
       else
         (r0 + clockTime * 0.5 * floatFactor,
          r1 + clockTime * 0.3 * floatFactor,
          r2);
     scale := setScalar (Types.scale d * scaleMult) |}.

Definition writeInstances (e clockTime scaleMult : R) (wobble : bool)
    (data : list PositionData) (ms : list Matrix4) : list Matrix4 :=
  forEach
    (fun ms d i =>
       setMatrixAt i (updateMatrix (dummyAt e clockTime scaleMult wobble d i)) ms)
    data 0%nat ms.

Definition animateMesh (ref : option InstancedMesh)
    (data : list PositionData) (delta clockTime targetProgress : R)
    (scaleMult : R) (wobble : bool) : option InstancedMesh :=
  match ref with
  | None => None
  | Some mesh =>
      let progress :=
        nextProgress (userData_progress mesh) delta targetProgress in
      Some {| userData_progress := Some progress;
              instanceMatrix :=
                writeInstances (eased progress) clockTime scaleMult wobble
                  data (instanceMatrix mesh);
              needsUpdate := true |}
  end.

(** *** Component state and the frame callback *)

Record State := {
  goldSpheresRef : option InstancedMesh;
  redBoxesRef : option InstancedMesh;
  bellsRef : option InstancedMesh;
  starRef : option Object3D;
  goldSphereData : list PositionData;
  redBoxData : list PositionData;
  bellData : list PositionData
}.

(** [goldSpheresRef.current?.userData.progress
      ?? (treeState === TreeState.TREE_SHAPE ? 1 : 0)]. *)
Definition starProgress (ref : option InstancedMesh)
    (treeState : TreeState) : R :=
  default (match treeState with TREE_SHAPE => 1 | SCATTERED => 0 end)
          (ref ≫= userData_progress).

Definition updateStar (p delta time : R) (o : Object3D) : Object3D :=
  let starHeight := TREE_CONFIG.HEIGHT in
  let scatterY := starHeight + 5 in
  let '(px, _, pz) := position o in
  let '(rx, ry, rz) := rotation o in
  let s := 1 + sin (time * 3) * 0.1 in
  {| position := (px, MathUtils.lerp scatterY starHeight p, pz);
     rotation := (rx, ry + delta * 0.5, rz);
     scale := setScalar (s * p) |}.

Definition useFrame (treeState : TreeState) (time delta : R) (s : State)
  : State :=
  let targetProgress := targetProgressOf treeState in
  let spheres :=
    animateMesh (goldSpheresRef s) (goldSphereData s) delta time
      targetProgress 1.0 false in
  let boxes :=
    animateMesh (redBoxesRef s) (redBoxData s) delta time
      targetProgress 1.3 false in
  let bells :=
    animateMesh (bellsRef s) (bellData s) delta time
      targetProgress 1.0 true in
  {| goldSpheresRef := spheres;
     redBoxesRef := boxes;
     bellsRef := bells;
     starRef :=
       match starRef s with
       | Some o => Some (updateStar (starProgress spheres treeState) delta time o)
       | None => None
       end;
     goldSphereData := goldSphereData s;
     redBoxData := redBoxData s;
     bellData := bellData s |}.

(** The component once mounted: the three meshes and the star group as
    the JSX creates them, the data as [useLayoutEffect] fills it. *)
Definition mounted : Gen State :=
  let count := TREE_CONFIG.ORNAMENT_COUNT in
  let n := INR count in
  let* gs := generateData (Math.floor (n * 0.4)) in
  let* rb := generateData (Math.floor (n * 0.4)) in
  let* bl := generateData (Math.floor (n * 0.2)) in
  gret {| goldSpheresRef := Some (newInstancedMesh count);
          redBoxesRef := Some (newInstancedMesh count);
          bellsRef := Some (newInstancedMesh count);
          starRef := Some {| position := (0, TREE_CONFIG.HEIGHT, 0);
                             rotation := (0, 0, 0);
                             scale := (1, 1, 1) |};
          goldSphereData := gs;
          redBoxData := rb;
          bellData := bl |}.

End Ornaments.

(** ** App.tsx and components/Scene.tsx *)

Module App.
(** The state of [useState<TreeState>(TreeState.TREE_SHAPE)]. *)
Definition initialTreeState : TreeState := TREE_SHAPE.

Definition toggleState (prev : TreeState) : TreeState :=
  match prev with
  | TREE_SHAPE => SCATTERED
  | SCATTERED => TREE_SHAPE
  end.
End App.

Module Scene.
Import THREE.

(** The frame callback of [InnerTreeCore]. *)
Definition InnerTreeCore_useFrame (treeState : TreeState) (delta : R)
    (meshRef : option Object3D) : option Object3D :=
  match meshRef with
  | Some mesh =>
      let targetScale := targetProgressOf treeState in
      let currentScale := (scale mesh).1.2 in
      let diff := targetScale - currentScale in
      let nextScale :=
        currentScale + diff * delta * ANIMATION_CONFIG.TRANSITION_SPEED in
      Some {| position := position mesh;
              rotation := rotation mesh;
              scale := setScalar nextScale |}
  | None => None
  end.

(** The mesh of [InnerTreeCore] as the JSX creates it. *)
Definition coreMounted : Object3D :=
  {| position := (0, TREE_CONFIG.HEIGHT / 2, 0);
     rotation := (0, 0, 0);
     scale := (1, 1, 1) |}.

(** The frame callback of [Scene]: the gentle rotation of the group. *)
Definition useFrame (delta : R) (groupRef : option Object3D)
  : option Object3D :=
  match groupRef with
  | Some g =>
      let '(rx, ry, rz) := rotation g in
      Some {| position := position g;
              rotation := (rx, ry + delta * 0.05, rz);
              scale := scale g |}
  | None => None
  end.
End Scene.

(** * Vocabulary of the properties *)

(** The contract of the easing function, in the words of the
    specification: [4x³] below [0.5], [1 − ((−2x+2)³)/2] otherwise. *)
Definition ease_spec (x : R) : R :=
  if Rlt_dec x 0.5 then 4 * x ^ 3 else 1 - ((- 2 * x + 2) ^ 3) / 2.

(** [clamp(x, lo, hi)] in the words of the specification: [x] cut off
    below at [lo] and above at [hi]. *)
Definition clamp_spec (x lo hi : R) : R :=
  if Rlt_dec x lo then lo else if Rlt_dec hi x then hi else x.

(** Repeated integration: the stored progress after the frames whose
    durations are [dts], all toward the same target. *)
Definition integrate (target p0 : R) (dts : list R) : R :=
  fold_left (fun p dt => Ornaments.nextProgress (Some p) dt target) dts p0.

(** A frame duration for which one step cannot pass the target:
    [0 <= dt] and [dt * k <= 1]. *)
Definition short_frame (dt : R) : Prop :=
  0 <= dt <= / ANIMATION_CONFIG.TRANSITION_SPEED.

(** Slot [i] of the instance matrices of a mesh reference. *)
Definition slot (ref : option THREE.InstancedMesh) (i : nat)
  : option THREE.Matrix4 :=
  ref ≫= fun m => THREE.instanceMatrix m !! i.

(** The positions held by the instance matrices of a mesh reference. *)
Definition positions (ref : option THREE.InstancedMesh)
  : option (list Vec3) :=
  (fun m => THREE.matrixPosition <$> THREE.instanceMatrix m) <$> ref.

(** The pool of the end-to-end scenario: three elements scattered at the
    origin and formed at [(1,1,1)], [(2,2,2)], [(3,3,3)]. *)
Definition element (formed : Vec3) : PositionData :=
  {| treePosition := formed;
     scatterPosition := (0, 0, 0);
     Types.rotation := (0, 0, 0);
     Types.scale := 1;
     type := box |}.

Definition pool3 : list PositionData :=
  [element (1, 1, 1); element (2, 2, 2); element (3, 3, 3)].

(** A mesh of [count] instances whose stored progress is [p]. *)
Definition meshAt (count : nat) (p : option R) : THREE.InstancedMesh :=
  {| THREE.userData_progress := p;
     THREE.instanceMatrix := replicate count THREE.identity;
     THREE.needsUpdate := false |}.

(** The frames of a run: target state, elapsed time and frame duration. *)
Definition run (frames : list (TreeState * R * R)) (s : Ornaments.State)
  : Ornaments.State :=
  fold_left (fun s '(ts, time, delta) => Ornaments.useFrame ts time delta s)
    frames s.

(** Euclidean distance between two points. *)
Definition dist (p c : Vec3) : R :=
  let '(x, y, z) := p in
  let '(cx, cy, cz) := c in
  sqrt ((x - cx) * (x - cx) + (y - cy) * (y - cy) + (z - cz) * (z - cz)).

(** The centre of the scatter cloud: on the axis of the formed shape, at
    half its height. *)
Definition scatterCenter : Vec3 := (0, TREE_CONFIG.HEIGHT / 2, 0).

(** The scattered-layout rule in the words of the specification: a point
    in spherical coordinates whose radius is the cube root of a draw times
    the scatter radius [S], moved up to the vertical midpoint. *)
Definition scatter_rule_spec (S u v w : R) : Vec3 :=
  let radius := Math.cbrt w * S in
  let azimuth := 2 * PI * u in
  let polar := acos (2 * v - 1) in
  (radius * sin polar * cos azimuth,
   radius * sin polar * sin azimuth + TREE_CONFIG.HEIGHT / 2,
   radius * cos polar).

(** The distance of a point from the vertical axis. *)
Definition axisDist (p : Vec3) : R :=
  let '(x, _, z) := p in sqrt (x * x + z * z).

(** What the generation guarantees of one particle: its height fraction
    [h] is in [[0,1)], its formed endpoint is at a distance from the axis
    between [0.7·R·(1−h)] (included) and [R·(1−h)], and its scattered
    endpoint is within [S] of the scatter centre. *)
Definition particle_in_bounds (p : Foliage.Particle) : Prop :=
  let h := (Foliage.aTreePos p).1.2 / TREE_CONFIG.HEIGHT in
  0 <= h < 1
  /\ 0.7 * TREE_CONFIG.RADIUS_BASE * (1 - h)
     <= axisDist (Foliage.aTreePos p)
     <= TREE_CONFIG.RADIUS_BASE * (1 - h)
  /\ dist (Foliage.aScatterPos p) scatterCenter
     <= TREE_CONFIG.SCATTER_RADIUS.

(** Sequences of draws used as concrete inputs. *)
Definition draws_zero : nat -> R := fun _ => 0.

Definition draws_half : nat -> R := fun _ => 0.5.

Definition draws_low : nat -> R :=
  fun n => match n with O => 0.5 | _ => 0 end.

(** The factor by which frames of durations [dts] shrink the distance of
    the progress to its target: the product of [1 - k * dt]. *)
Definition decay (dts : list R) : R :=
  fold_right
    (fun dt acc => (1 - ANIMATION_CONFIG.TRANSITION_SPEED * dt) * acc) 1 dts.

(** The progress after [frames], whose targets may change, from [p0]. *)
Definition track (frames : list (TreeState * R * R)) (p0 : R) : R :=
  fold_left
    (fun p '(ts, _, delta) =>
       Ornaments.nextProgress (Some p) delta (targetProgressOf ts))
    frames p0.

(** The frame callbacks of the inner core and of the scene group over
    frames. *)
Definition runCore (frames : list (TreeState * R * R))
    (m : option THREE.Object3D) : option THREE.Object3D :=
  fold_left (fun m '(ts, _, delta) => Scene.InnerTreeCore_useFrame ts delta m)
    frames m.

Definition runGroup (frames : list (TreeState * R * R))
    (g : option THREE.Object3D) : option THREE.Object3D :=
  fold_left (fun g '(_, _, delta) => Scene.useFrame delta g) frames g.

(** The time that [frames] add up to. *)
Definition totalDelta (frames : list (TreeState * R * R)) : R :=
  fold_right (fun '(_, _, delta) acc => delta + acc) 0 frames.

Definition short_frames (frames : list (TreeState * R * R)) : Prop :=
  Forall (fun f => short_frame f.2) frames.

(** The progress a pool is at: the stored value, [0] while none is. *)
Definition poolProgress (ref : option THREE.InstancedMesh) : R :=
  default 0 (ref ≫= THREE.userData_progress).

(** [x] lies between [a] and [b], whichever is larger. *)
Definition between (a b x : R) : Prop := Rmin a b <= x <= Rmax a b.

(** A point lies in the box spanned by two points. *)
Definition in_box (p q x : Vec3) : Prop :=
  between p.1.1 q.1.1 x.1.1
  /\ between p.1.2 q.1.2 x.1.2
  /\ between p.2 q.2 x.2.

(** The apex element is between its formed and its scattered height and
    its scale is uniform, between [0] and [1.1]. *)
Definition star_in_range (o : THREE.Object3D) : Prop :=
  TREE_CONFIG.HEIGHT <= (THREE.position o).1.2 <= TREE_CONFIG.HEIGHT + 5
  /\ exists c, THREE.scale o = (c, c, c) /\ 0 <= c <= 1.1.

(** The same vector with [a] added to its [y] component. *)
Definition add_y (v : Vec3) (a : R) : Vec3 := (v.1.1, v.1.2 + a, v.2).

(** An ornament is formed at a height between [0.5] and [H - 1] and at a
    distance from the axis that exceeds the radius of the cone at that
    height by at least [0.1] and less than [0.3]. *)
Definition ornament_on_surface (d : PositionData) : Prop :=
  let y := (treePosition d).1.2 in
  let cone := TREE_CONFIG.RADIUS_BASE * (1 - y / TREE_CONFIG.HEIGHT) in
  0.5 <= y < TREE_CONFIG.HEIGHT - 1
  /\ cone + 0.1 <= axisDist (treePosition d) < cone + 0.3.

(** The base scale of an ornament is in [[0.2, 0.5)], its base rotation
    is about [x] and [y] only, by angles in [[0, π)], and its type is the
    placeholder. *)
Definition ornament_attributes (d : PositionData) : Prop :=
  0.2 <= Types.scale d < 0.5
  /\ (0 <= (Types.rotation d).1.1 < PI
      /\ 0 <= (Types.rotation d).1.2 < PI
      /\ (Types.rotation d).2 = 0)
  /\ type d = box.

(** Slot [i] of a pool holds the matrix of element [i] of its data: a
    position between the two endpoints of the element and the uniform
    scale that is the base scale of the element, in [[0.2, 0.5)], times
    the multiplier [sm] of the pool. *)
Definition written_instance (ref : option THREE.InstancedMesh)
    (data : list PositionData) (i : nat) (sm : R) : Prop :=
  exists d m,
    data !! i = Some d
    /\ slot ref i = Some m
    /\ in_box (scatterPosition d) (treePosition d) (THREE.matrixPosition m)
    /\ THREE.matrixScale m = THREE.setScalar (Types.scale d * sm)
    /\ 0.2 * sm <= Types.scale d * sm < 0.5 * sm.

(** * Properties *)

(** ** Arithmetic helpers *)

Lemma cube_le (x y : R) : x <= y -> x * x * x <= y * y * y.
Proof.
  intros Hxy.
  set (s := (x + y / 2) * (x + y / 2) + 3 / 4 * (y * y)).
  assert (H : y * y * y - x * x * x = (y - x) * s) by (unfold s; field).
  assert (0 <= s) by (unfold s; nra).
  assert (0 <= (y - x) * s) by (apply Rmult_le_pos; lra).
  lra.
Qed.

Lemma pow3 (x : R) : x ^ 3 = x * x * x.
Proof. simpl. ring. Qed.

(** ** The easing curve *)

Lemma eased_spec (x : R) : Ornaments.eased x = ease_spec x.
Proof.
  unfold Ornaments.eased, ease_spec.
  destruct (Rlt_dec x 0.5); rewrite ?pow3; ring.
Qed.

Lemma easeInOutCubic_spec (x : R) : Foliage.easeInOutCubic x = ease_spec x.
Proof.
  unfold Foliage.easeInOutCubic, ease_spec.
  destruct (Rlt_dec x 0.5); rewrite ?pow3; lra.
Qed.

Lemma ease_spec_0 : ease_spec 0 = 0.
Proof. unfold ease_spec. destruct (Rlt_dec 0 0.5); [rewrite pow3|]; lra. Qed.

Lemma ease_spec_1 : ease_spec 1 = 1.
Proof. unfold ease_spec. destruct (Rlt_dec 1 0.5); [|rewrite pow3]; lra. Qed.

Lemma ease_spec_half : ease_spec 0.5 = 0.5.
Proof. unfold ease_spec. destruct (Rlt_dec 0.5 0.5); [|rewrite pow3]; lra. Qed.

Lemma ease_spec_mono (x y : R) : x <= y -> ease_spec x <= ease_spec y.
Proof.
  intros Hxy. unfold ease_spec.
  destruct (Rlt_dec x 0.5) as [Hx|Hx], (Rlt_dec y 0.5) as [Hy|Hy];
    rewrite !pow3.
  - pose proof (cube_le x y Hxy). lra.
  - pose proof (cube_le x 0.5 ltac:(lra)).
    pose proof (cube_le (- 2 * y + 2) 1 ltac:(lra)). lra.
  - lra.
  - pose proof (cube_le (- 2 * y + 2) (- 2 * x + 2) ltac:(lra)). lra.
Qed.

Lemma ease_spec_symm (x : R) : ease_spec x = 1 - ease_spec (1 - x).
Proof.
  unfold ease_spec.
  destruct (Rlt_dec x 0.5) as [Hx|Hx], (Rlt_dec (1 - x) 0.5) as [Hy|Hy];
    rewrite !pow3; try lra.
  assert (x = 0.5) by lra. subst x. lra.
Qed.

(** C2: the easing expression of [animateMesh] and the shader's
    [easeInOutCubic] both compute the curve of the contract, [4x³] below
    [0.5] and [1 − ((−2x+2)³)/2] otherwise, hence agree at every [x] (in
    particular on [[0,1]]); the curve is [0] at [0], [1] at [1] and [0.5]
    at [0.5]. *)
Theorem easing_paths_agree :
  (forall x, Ornaments.eased x = ease_spec x)
  /\ (forall x, Foliage.easeInOutCubic x = ease_spec x)
  /\ (forall x, Ornaments.eased x = Foliage.easeInOutCubic x)
  /\ Ornaments.eased 0 = 0 /\ Foliage.easeInOutCubic 0 = 0
  /\ Ornaments.eased 1 = 1 /\ Foliage.easeInOutCubic 1 = 1
  /\ Ornaments.eased 0.5 = 0.5 /\ Foliage.easeInOutCubic 0.5 = 0.5.
Proof.
  repeat split; intros;
    rewrite ?eased_spec, ?easeInOutCubic_spec;
    auto using ease_spec_0, ease_spec_1, ease_spec_half.
Qed.

(** C8: on [[0,1]] the easing function (host and shader) is monotonically
    non-decreasing and point-symmetric around [0.5]:
    [ease x = 1 − ease (1 − x)]. *)
Theorem easing_monotone_symmetric (x y : R) :
  0 <= x -> x <= y -> y <= 1 ->
  Ornaments.eased x <= Ornaments.eased y
  /\ Foliage.easeInOutCubic x <= Foliage.easeInOutCubic y
  /\ Ornaments.eased x = 1 - Ornaments.eased (1 - x)
  /\ Foliage.easeInOutCubic x = 1 - Foliage.easeInOutCubic (1 - x).
Proof.
  intros _ Hxy _. rewrite !eased_spec, !easeInOutCubic_spec.
  auto using ease_spec_mono, ease_spec_symm.
Qed.

Lemma easing_monotone_symmetric_witness :
  Ornaments.eased 0.25 <= Ornaments.eased 0.75
  /\ Foliage.easeInOutCubic 0.25 <= Foliage.easeInOutCubic 0.75
  /\ Ornaments.eased 0.25 = 1 - Ornaments.eased (1 - 0.25)
  /\ Foliage.easeInOutCubic 0.25 = 1 - Foliage.easeInOutCubic (1 - 0.25).
Proof. apply (easing_monotone_symmetric 0.25 0.75); lra. Defined.

(** ** Per-element local progress of the particle shader *)

Lemma clamp_clamp_spec (x lo hi : R) :
  lo <= hi -> GLSL.clamp x lo hi = clamp_spec x lo hi.
Proof.
  intros Hlh. unfold GLSL.clamp, clamp_spec, Rmin, Rmax.
  destruct (Rlt_dec x lo), (Rlt_dec hi x), (Rle_dec x lo);
    try destruct (Rle_dec lo hi); try destruct (Rle_dec x hi); lra.
Qed.

Lemma clamp_mono (x y lo hi : R) :
  x <= y -> GLSL.clamp x lo hi <= GLSL.clamp y lo hi.
Proof.
  intros Hxy. unfold GLSL.clamp.
  apply Rle_min_compat_r, Rle_max_compat_r, Hxy.
Qed.

Lemma clamp_range (x lo hi : R) :
  lo <= hi -> lo <= GLSL.clamp x lo hi <= hi.
Proof.
  intros Hlh. unfold GLSL.clamp. split.
  - apply Rmin_glb; [apply Rmax_r | exact Hlh].
  - apply Rmin_r.
Qed.

(** C7: in the particle shader the local progress of an element is
    [clamp(globalProgress·1.2 − randomSeed·0.2, 0, 1)]; for a fixed global
    progress an element with a larger seed never has a larger local
    progress than one with a smaller seed, and the local progress is in
    [[0,1]]. *)
Theorem localProgress_staggered (uProgress r1 r2 : R) :
  r1 <= r2 ->
  Foliage.localProgress uProgress r1
    = clamp_spec (uProgress * 1.2 - r1 * 0.2) 0 1
  /\ Foliage.localProgress uProgress r2 <= Foliage.localProgress uProgress r1
  /\ 0 <= Foliage.localProgress uProgress r1 <= 1.
Proof.
  intros Hr. unfold Foliage.localProgress. split; [|split].
  - replace 0.0 with 0 by lra. replace 1.0 with 1 by lra.
    apply clamp_clamp_spec; lra.
  - apply clamp_mono; lra.
  - pose proof (clamp_range (uProgress * 1.2 - r1 * 0.2) 0.0 1.0
                  ltac:(lra)).
    lra.
Qed.

Lemma localProgress_staggered_witness :
  Foliage.localProgress 0.5 0.25
    = clamp_spec (0.5 * 1.2 - 0.25 * 0.2) 0 1
  /\ Foliage.localProgress 0.5 0.75 <= Foliage.localProgress 0.5 0.25
  /\ 0 <= Foliage.localProgress 0.5 0.25 <= 1.
Proof. apply (localProgress_staggered 0.5 0.25 0.75); lra. Defined.

(** ** The progress integrator *)

Lemma nextProgress_law (stored : option R) (dt target : R) :
  Ornaments.nextProgress stored dt target
  = default 0 stored
    + (target - default 0 stored) * dt * ANIMATION_CONFIG.TRANSITION_SPEED.
Proof. reflexivity. Qed.

Lemma step_toward_1 (p dt : R) :
  short_frame dt -> 0 <= p <= 1 ->
  p <= Ornaments.nextProgress (Some p) dt 1 <= 1.
Proof.
  unfold short_frame, Ornaments.nextProgress,
    ANIMATION_CONFIG.TRANSITION_SPEED. simpl.
  intros [H0 H1] [Hp0 Hp1]. nra.
Qed.

Lemma step_toward_0 (p dt : R) :
  short_frame dt -> 0 <= p <= 1 ->
  0 <= Ornaments.nextProgress (Some p) dt 0 <= p.
Proof.
  unfold short_frame, Ornaments.nextProgress,
    ANIMATION_CONFIG.TRANSITION_SPEED. simpl.
  intros [H0 H1] [Hp0 Hp1]. nra.
Qed.

Lemma integrate_snoc (target p0 : R) (dts : list R) (dt : R) :
  integrate target p0 (dts ++ [dt])
  = Ornaments.nextProgress (Some (integrate target p0 dts)) dt target.
Proof. unfold integrate. rewrite fold_left_app. reflexivity. Qed.

Lemma integrate_toward_1_range (p0 : R) (dts : list R) :
  Forall short_frame dts -> 0 <= p0 <= 1 ->
  p0 <= integrate 1 p0 dts <= 1.
Proof.
  revert p0. induction dts as [|dt dts IH]; intros p0 Hd Hp; simpl.
  - unfold integrate; simpl; lra.
  - inversion Hd as [|? ? Hdt Hdts]; subst.
    pose proof (step_toward_1 p0 dt Hdt Hp) as Hs.
    specialize (IH (Ornaments.nextProgress (Some p0) dt 1) Hdts
                   ltac:(lra)).
    unfold integrate in *; simpl; lra.
Qed.

Lemma integrate_toward_0_range (p0 : R) (dts : list R) :
  Forall short_frame dts -> 0 <= p0 <= 1 ->
  0 <= integrate 0 p0 dts <= p0.
Proof.
  revert p0. induction dts as [|dt dts IH]; intros p0 Hd Hp; simpl.
  - unfold integrate; simpl; lra.
  - inversion Hd as [|? ? Hdt Hdts]; subst.
    pose proof (step_toward_0 p0 dt Hdt Hp) as Hs.
    specialize (IH (Ornaments.nextProgress (Some p0) dt 0) Hdts
                   ltac:(lra)).
    unfold integrate in *; simpl; lra.
Qed.

Lemma animateMesh_progress (mesh : THREE.InstancedMesh)
    (data : list PositionData) (dt t target sm : R) (wb : bool) :
  (Ornaments.animateMesh (Some mesh) data dt t target sm wb
     ≫= THREE.userData_progress)
  = Some (Ornaments.nextProgress (THREE.userData_progress mesh) dt target).
Proof. reflexivity. Qed.

Lemma useFrame_progress (ts : TreeState) (t dt : R)
    (m : Foliage.ShaderMaterial) :
  Foliage.uProgress <$> Foliage.useFrame ts t dt (Some m)
  = Some (Ornaments.nextProgress (Some (Foliage.uProgress m)) dt
            (targetProgressOf ts)).
Proof. reflexivity. Qed.

(** C1 (as stated, for all [Δt ≥ 0]) fails: with [Δt = 1] one frame
    toward target [1] takes the progress from [0] to [2], the next frame
    takes it back down to [0], and one frame toward target [0] takes the
    progress from [1] to [−1]. *)
Lemma integrator_overshoots :
  0 <= 1
  /\ integrate 1 0 [1] = 2 /\ 1 < integrate 1 0 [1]
  /\ integrate 1 0 [1; 1] < integrate 1 0 [1]
  /\ integrate 0 1 [1] < 0.
Proof.
  unfold integrate, Ornaments.nextProgress,
    ANIMATION_CONFIG.TRANSITION_SPEED; simpl.
  repeat split; lra.
Qed.

(** C1 (amended): one frame of the integrator of every pool (the particle
    field and the instanced pools) takes the progress to
    [progress + (target − progress)·Δt·k] with the one constant
    [k = TRANSITION_SPEED]; when every frame has [0 ≤ Δt ≤ 1/k], repeated
    integration toward target [1] from [0] never exceeds [1] and never
    decreases, and toward target [0] from a progress in [[0,1]] never goes
    negative. *)
Theorem integrator_law_and_bounds (dts : list R) (p0 : R) :
  Forall short_frame dts -> 0 <= p0 <= 1 ->
  (forall mesh data dt t target sm wb,
     Ornaments.animateMesh (Some mesh) data dt t target sm wb
       ≫= THREE.userData_progress
     = Some (default 0 (THREE.userData_progress mesh)
             + (target - default 0 (THREE.userData_progress mesh))
               * dt * ANIMATION_CONFIG.TRANSITION_SPEED))
  /\ (forall ts t dt m,
        Foliage.uProgress <$> Foliage.useFrame ts t dt (Some m)
        = Some (Foliage.uProgress m
                + (targetProgressOf ts - Foliage.uProgress m)
                  * dt * ANIMATION_CONFIG.TRANSITION_SPEED))
  /\ 0 <= integrate 1 0 dts <= 1
  /\ (forall dt, short_frame dt ->
        integrate 1 0 dts <= integrate 1 0 (dts ++ [dt]) <= 1)
  /\ 0 <= integrate 0 p0 dts <= p0.
Proof.
  intros Hd Hp. split; [|split; [|split; [|split]]].
  - intros. rewrite animateMesh_progress. reflexivity.
  - intros. rewrite useFrame_progress. reflexivity.
  - apply integrate_toward_1_range; [exact Hd | lra].
  - intros dt Hdt. rewrite integrate_snoc.
    apply step_toward_1; [exact Hdt|].
    pose proof (integrate_toward_1_range 0 dts Hd ltac:(lra)). lra.
  - apply integrate_toward_0_range; assumption.
Qed.

Lemma short_frame_intro (dt : R) : 0 <= dt <= 0.5 -> short_frame dt.
Proof.
  unfold short_frame, ANIMATION_CONFIG.TRANSITION_SPEED. lra.
Qed.

Lemma integrator_law_and_bounds_witness :
  0 <= integrate 1 0 [0.016; 0.5; 0.25] <= 1
  /\ 0 <= integrate 0 0.3 [0.016; 0.5; 0.25] <= 0.3.
Proof.
  assert (Hd : Forall short_frame [0.016; 0.5; 0.25]).
  { repeat (apply List.Forall_cons; [apply short_frame_intro; lra|]).
    apply List.Forall_nil. }
  destruct (integrator_law_and_bounds [0.016; 0.5; 0.25] 0.3 Hd
              ltac:(lra)) as (_ & _ & H1 & _ & H0).
  split; assumption.
Defined.

(** ** The instance loop of [animateMesh] *)

Section InstanceLoop.
Context {A : Type} (g : A -> nat -> THREE.Matrix4).

Let body := fun (ms : list THREE.Matrix4) (d : A) (i : nat) =>
  THREE.setMatrixAt i (g d i) ms.

(** Slot [j] after the loop over [data] started at index [i0]: the matrix
    of element [j - i0] when there is such an element and such a slot,
    the old contents otherwise. *)
Lemma forEach_setMatrixAt_lookup (data : list A) (i0 : nat)
    (ms : list THREE.Matrix4) (j : nat) :
  forEach body data i0 ms !! j
  = match (if decide (i0 <= j)%nat then data !! (j - i0)%nat else None),
          ms !! j with
    | Some d, Some _ => Some (g d j)
    | _, old => old
    end.
Proof.
  revert i0 ms. induction data as [|d0 data IH]; intros i0 ms; simpl.
  - destruct (decide (i0 <= j)%nat); [rewrite lookup_nil|]; reflexivity.
  - rewrite IH. unfold body, THREE.setMatrixAt.
    destruct (decide (j = i0)) as [->|Hne].
    + rewrite decide_False by lia. rewrite decide_True by lia.
      replace (i0 - i0)%nat with 0%nat by lia. simpl.
      destruct (ms !! i0) eqn:Hm.
      * apply list_lookup_insert_eq. eapply lookup_lt_Some, Hm.
      * apply lookup_ge_None. rewrite length_insert.
        apply lookup_ge_None, Hm.
    + rewrite !list_lookup_insert_ne by congruence.
      destruct (decide (i0 <= j)%nat) as [Hle|Hgt].
      * rewrite decide_True by lia.
        replace (j - i0)%nat with (S (j - S i0)) by lia.
        rewrite lookup_cons. reflexivity.
      * rewrite decide_False by lia. reflexivity.
Qed.

Lemma forEach_setMatrixAt_length (data : list A) (i0 : nat)
    (ms : list THREE.Matrix4) :
  length (forEach body data i0 ms) = length ms.
Proof.
  revert i0 ms. induction data as [|d0 data IH]; intros i0 ms; simpl.
  - reflexivity.
  - rewrite IH. unfold body, THREE.setMatrixAt. apply length_insert.
Qed.

End InstanceLoop.

Lemma writeInstances_lookup (e t sm : R) (wb : bool)
    (data : list PositionData) (ms : list THREE.Matrix4) (j : nat) :
  Ornaments.writeInstances e t sm wb data ms !! j
  = match data !! j, ms !! j with
    | Some d, Some _ =>
        Some (THREE.updateMatrix (Ornaments.dummyAt e t sm wb d j))
    | _, old => old
    end.
Proof.
  unfold Ornaments.writeInstances.
  rewrite (forEach_setMatrixAt_lookup
             (fun d i => THREE.updateMatrix (Ornaments.dummyAt e t sm wb d i))).
  rewrite decide_True by lia. rewrite Nat.sub_0_r. reflexivity.
Qed.

Lemma writeInstances_length (e t sm : R) (wb : bool)
    (data : list PositionData) (ms : list THREE.Matrix4) :
  length (Ornaments.writeInstances e t sm wb data ms) = length ms.
Proof.
  unfold Ornaments.writeInstances.
  apply (forEach_setMatrixAt_length
           (fun d i => THREE.updateMatrix (Ornaments.dummyAt e t sm wb d i))).
Qed.

Lemma writeInstances_written (e t sm : R) (wb : bool)
    (data : list PositionData) (ms : list THREE.Matrix4) (i : nat)
    (d : PositionData) :
  data !! i = Some d -> (i < length ms)%nat ->
  Ornaments.writeInstances e t sm wb data ms !! i
  = Some (THREE.updateMatrix (Ornaments.dummyAt e t sm wb d i)).
Proof.
  intros Hd Hi. rewrite writeInstances_lookup, Hd.
  destruct (lookup_lt_is_Some_2 ms i Hi) as [m ->]. reflexivity.
Qed.

Lemma writeInstances_beyond (e t sm : R) (wb : bool)
    (data : list PositionData) (ms : list THREE.Matrix4) (k : nat) :
  Ornaments.writeInstances e t sm wb data ms !! (length data + k)%nat
  = ms !! (length data + k)%nat.
Proof.
  rewrite writeInstances_lookup.
  rewrite (proj2 (lookup_ge_None data (length data + k)%nat)) by lia.
  reflexivity.
Qed.

Lemma writeInstances_idem (e t sm : R) (wb : bool)
    (data : list PositionData) (ms : list THREE.Matrix4) :
  Ornaments.writeInstances e t sm wb data
    (Ornaments.writeInstances e t sm wb data ms)
  = Ornaments.writeInstances e t sm wb data ms.
Proof.
  apply list_eq; intros j. rewrite !writeInstances_lookup.
  destruct (data !! j), (ms !! j); reflexivity.
Qed.

(** ** Blending at the two ends *)

Lemma eased_1 : Ornaments.eased 1 = 1.
Proof. rewrite eased_spec. apply ease_spec_1. Qed.

Lemma eased_0 : Ornaments.eased 0 = 0.
Proof. rewrite eased_spec. apply ease_spec_0. Qed.

Lemma dummyAt_position (e t sm : R) (wb : bool) (d : PositionData)
    (i : nat) :
  THREE.position (Ornaments.dummyAt e t sm wb d i)
  = (THREE.MathUtils.lerp (scatterPosition d).1.1 (treePosition d).1.1 e,
     THREE.MathUtils.lerp (scatterPosition d).1.2 (treePosition d).1.2 e,
     THREE.MathUtils.lerp (scatterPosition d).2 (treePosition d).2 e).
Proof.
  unfold Ornaments.dummyAt.
  destruct (scatterPosition d) as [[sx sy] sz],
           (treePosition d) as [[tx ty] tz],
           (Types.rotation d) as [[r0 r1] r2].
  reflexivity.
Qed.

Lemma dummyAt_formed (t sm : R) (wb : bool) (d : PositionData) (i : nat) :
  THREE.position (Ornaments.dummyAt (Ornaments.eased 1) t sm wb d i)
  = treePosition d.
Proof.
  rewrite dummyAt_position, eased_1.
  destruct (treePosition d) as [[tx ty] tz]. unfold THREE.MathUtils.lerp.
  simpl. f_equal; [f_equal|]; ring.
Qed.

Lemma dummyAt_scattered (t sm : R) (wb : bool) (d : PositionData)
    (i : nat) :
  THREE.position (Ornaments.dummyAt (Ornaments.eased 0) t sm wb d i)
  = scatterPosition d.
Proof.
  rewrite dummyAt_position, eased_0.
  destruct (scatterPosition d) as [[sx sy] sz]. unfold THREE.MathUtils.lerp.
  simpl. f_equal; [f_equal|]; ring.
Qed.

Lemma localProgress_formed (r : R) : r <= 1 -> Foliage.localProgress 1 r = 1.
Proof.
  intros Hr. unfold Foliage.localProgress, GLSL.clamp.
  rewrite Rmax_left by lra. rewrite Rmin_right by lra. lra.
Qed.

Lemma localProgress_scattered (r : R) :
  0 <= r -> Foliage.localProgress 0 r = 0.
Proof.
  intros Hr. unfold Foliage.localProgress, GLSL.clamp.
  rewrite Rmax_right by lra. rewrite Rmin_left by lra. lra.
Qed.

Lemma mixPos_formed (tree scat : Vec3) (r : R) :
  r <= 1 -> Foliage.mixPos 1 tree scat r = tree.
Proof.
  intros Hr. unfold Foliage.mixPos, Foliage.easedProgress.
  rewrite localProgress_formed by exact Hr.
  rewrite easeInOutCubic_spec, ease_spec_1.
  destruct tree as [[tx ty] tz], scat as [[sx sy] sz].
  unfold GLSL.mix3, GLSL.mix. f_equal; [f_equal|]; ring.
Qed.

Lemma mixPos_scattered (tree scat : Vec3) (r : R) :
  0 <= r -> Foliage.mixPos 0 tree scat r = scat.
Proof.
  intros Hr. unfold Foliage.mixPos, Foliage.easedProgress.
  rewrite localProgress_scattered by exact Hr.
  rewrite easeInOutCubic_spec, ease_spec_0.
  destruct tree as [[tx ty] tz], scat as [[sx sy] sz].
  unfold GLSL.mix3, GLSL.mix. f_equal; [f_equal|]; ring.
Qed.

Lemma animateMesh_slot (mesh : THREE.InstancedMesh)
    (data : list PositionData) (dt t target sm : R) (wb : bool)
    (i : nat) (d : PositionData) :
  data !! i = Some d -> (i < length (THREE.instanceMatrix mesh))%nat ->
  slot (Ornaments.animateMesh (Some mesh) data dt t target sm wb) i
  = Some (THREE.updateMatrix
            (Ornaments.dummyAt
               (Ornaments.eased
                  (Ornaments.nextProgress (THREE.userData_progress mesh)
                     dt target))
               t sm wb d i)).
Proof.
  intros Hd Hi. unfold slot. simpl.
  apply writeInstances_written; assumption.
Qed.

Lemma positions_pool3 (p dt t target sm : R) (wb : bool) (e : R) :
  Ornaments.eased (Ornaments.nextProgress (Some p) dt target) = e ->
  positions
    (Ornaments.animateMesh (Some (meshAt 3 (Some p))) pool3 dt t target sm wb)
  = Some (map (fun d => THREE.position (Ornaments.dummyAt e t sm wb d 0))
            pool3).
Proof.
  intros He. unfold positions, Ornaments.animateMesh. simpl. rewrite He.
  reflexivity.
Qed.

(** C3: for every element of an instanced pool, when the progress of the
    pool is [1] the blended position written for it is exactly its formed
    (tree) endpoint, and when the progress is [0] exactly its scattered
    endpoint; the same holds for the blend [mix(aScatterPos, aTreePos, ·)]
    of the particle shader at global progress [1] and [0].  In particular
    the pool of three elements scattered at [(0,0,0)] and formed at
    [(1,1,1)], [(2,2,2)], [(3,3,3)] ends at exactly those positions. *)
Theorem blend_reaches_endpoints (mesh : THREE.InstancedMesh)
    (data : list PositionData) (i : nat) (d : PositionData)
    (dt1 target1 dt0 target0 t sm : R) (wb : bool) (aRandom uTime : R) :
  data !! i = Some d ->
  (i < length (THREE.instanceMatrix mesh))%nat ->
  Ornaments.nextProgress (THREE.userData_progress mesh) dt1 target1 = 1 ->
  Ornaments.nextProgress (THREE.userData_progress mesh) dt0 target0 = 0 ->
  0 <= aRandom < 1 ->
  THREE.matrixPosition
    <$> slot (Ornaments.animateMesh (Some mesh) data dt1 t target1 sm wb) i
  = Some (treePosition d)
  /\ THREE.matrixPosition
       <$> slot (Ornaments.animateMesh (Some mesh) data dt0 t target0 sm wb) i
     = Some (scatterPosition d)
  /\ Foliage.mixPos 1 (treePosition d) (scatterPosition d) aRandom
     = treePosition d
  /\ Foliage.mixPos 0 (treePosition d) (scatterPosition d) aRandom
     = scatterPosition d
  /\ Foliage.windPos uTime 0 (treePosition d) (scatterPosition d) aRandom
     = scatterPosition d
  /\ positions
       (Ornaments.animateMesh (Some (meshAt 3 (Some 1))) pool3 dt1 t 1 sm wb)
     = Some [(1, 1, 1); (2, 2, 2); (3, 3, 3)]
  /\ positions
       (Ornaments.animateMesh (Some (meshAt 3 (Some 0))) pool3 dt0 t 0 sm wb)
     = Some [(0, 0, 0); (0, 0, 0); (0, 0, 0)].
Proof.
  intros Hd Hi H1 H0 Hr.
  split; [|split; [|split; [|split; [|split; [|split]]]]].
  - rewrite (animateMesh_slot _ _ _ _ _ _ _ _ _ Hd Hi), H1. simpl.
    f_equal. apply dummyAt_formed.
  - rewrite (animateMesh_slot _ _ _ _ _ _ _ _ _ Hd Hi), H0. simpl.
    f_equal. apply dummyAt_scattered.
  - apply mixPos_formed; lra.
  - apply mixPos_scattered; lra.
  - unfold Foliage.windPos. rewrite mixPos_scattered by lra.
    unfold Foliage.easedProgress.
    rewrite localProgress_scattered by lra.
    rewrite easeInOutCubic_spec, ease_spec_0.
    destruct (scatterPosition d) as [[sx sy] sz].
    f_equal; [f_equal|]; ring.
  - rewrite (positions_pool3 1 dt1 t 1 sm wb (Ornaments.eased 1)).
    + unfold pool3. cbn [map]. rewrite !dummyAt_formed. reflexivity.
    + f_equal. unfold Ornaments.nextProgress. simpl. ring.
  - rewrite (positions_pool3 0 dt0 t 0 sm wb (Ornaments.eased 0)).
    + unfold pool3. cbn [map]. rewrite !dummyAt_scattered. reflexivity.
    + f_equal. unfold Ornaments.nextProgress. simpl. ring.
Qed.

Lemma blend_reaches_endpoints_witness :
  THREE.matrixPosition
    <$> slot (Ornaments.animateMesh (Some (meshAt 3 (Some 1))) pool3
                0.016 7 1 1.3 true) 2
  = Some (3, 3, 3)
  /\ THREE.matrixPosition
       <$> slot (Ornaments.animateMesh (Some (meshAt 3 (Some 1))) pool3
                   0.5 7 0 1.3 true) 2
     = Some (0, 0, 0).
Proof.
  destruct (blend_reaches_endpoints (meshAt 3 (Some 1)) pool3 2
              (element (3, 3, 3)) 0.016 1 0.5 0 7 1.3 true 0.25 7)
    as (Hf & Hs & _).
  - reflexivity.
  - simpl. lia.
  - unfold Ornaments.nextProgress, ANIMATION_CONFIG.TRANSITION_SPEED.
    simpl. lra.
  - unfold Ornaments.nextProgress, ANIMATION_CONFIG.TRANSITION_SPEED.
    simpl. lra.
  - lra.
  - split; assumption.
Defined.

(** ** Missing progress *)



(** ** Instance slots and endpoint data *)

Lemma floor_IZR (z : Z) (x : R) :
  x = IZR z -> Math.floor x = Z.to_nat z.
Proof. intros ->. unfold Math.floor. rewrite ZfloorZ. reflexivity. Qed.

Lemma sphere_box_count :
  Math.floor (INR TREE_CONFIG.ORNAMENT_COUNT * 0.4) = 180%nat.
Proof.
  rewrite (floor_IZR 180); [reflexivity|].
  unfold TREE_CONFIG.ORNAMENT_COUNT. rewrite INR_IZR_INZ.
  change (Z.of_nat 450) with 450%Z. lra.
Qed.

Lemma bell_count :
  Math.floor (INR TREE_CONFIG.ORNAMENT_COUNT * 0.2) = 90%nat.
Proof.
  rewrite (floor_IZR 90); [reflexivity|].
  unfold TREE_CONFIG.ORNAMENT_COUNT. rewrite INR_IZR_INZ.
  change (Z.of_nat 450) with 450%Z. lra.
Qed.

Lemma generateFrom_length (draws : nat -> R) (k : nat)
    (data : list PositionData) (n : nat) :
  length (Ornaments.generateFrom k data draws n).1 = (length data + k)%nat.
Proof.
  revert data n. induction k as [|k IH]; intros data n; simpl.
  - lia.
  - unfold gbind at 1.
    destruct (Ornaments.ornament draws n) as [d n'].
    rewrite IH, length_app. simpl. lia.
Qed.

Lemma generateData_length (draws : nat -> R) (count n : nat) :
  length (Ornaments.generateData count draws n).1 = count.
Proof. unfold Ornaments.generateData. rewrite generateFrom_length. reflexivity. Qed.

Lemma animateMesh_beyond (ref : option THREE.InstancedMesh)
    (data : list PositionData) (dt t target sm : R) (wb : bool) (k : nat) :
  slot (Ornaments.animateMesh ref data dt t target sm wb)
       (length data + k)
  = slot ref (length data + k).
Proof.
  destruct ref as [mesh|]; [|reflexivity].
  unfold slot. simpl. apply writeInstances_beyond.
Qed.

Lemma animateMesh_slots (ref : option THREE.InstancedMesh)
    (data : list PositionData) (dt t target sm : R) (wb : bool) :
  (fun m => length (THREE.instanceMatrix m))
    <$> Ornaments.animateMesh ref data dt t target sm wb
  = (fun m => length (THREE.instanceMatrix m)) <$> ref.
Proof.
  destruct ref as [mesh|]; [|reflexivity].
  simpl. f_equal. apply writeInstances_length.
Qed.

Lemma run_cons (ts : TreeState) (t dt : R)
    (frames : list (TreeState * R * R)) (s : Ornaments.State) :
  run ((ts, t, dt) :: frames) s = run frames (Ornaments.useFrame ts t dt s).
Proof. reflexivity. Qed.

Lemma run_data (frames : list (TreeState * R * R)) (s : Ornaments.State) :
  Ornaments.goldSphereData (run frames s) = Ornaments.goldSphereData s
  /\ Ornaments.redBoxData (run frames s) = Ornaments.redBoxData s
  /\ Ornaments.bellData (run frames s) = Ornaments.bellData s.
Proof.
  revert s. induction frames as [|[[ts t] dt] frames IH]; intros s.
  - repeat split.
  - rewrite run_cons. destruct (IH (Ornaments.useFrame ts t dt s))
      as (-> & -> & ->). repeat split.
Qed.

Lemma run_beyond (frames : list (TreeState * R * R)) (s : Ornaments.State)
    (k : nat) :
  slot (Ornaments.goldSpheresRef (run frames s))
       (length (Ornaments.goldSphereData s) + k)
  = slot (Ornaments.goldSpheresRef s)
         (length (Ornaments.goldSphereData s) + k)
  /\ slot (Ornaments.redBoxesRef (run frames s))
          (length (Ornaments.redBoxData s) + k)
     = slot (Ornaments.redBoxesRef s) (length (Ornaments.redBoxData s) + k)
  /\ slot (Ornaments.bellsRef (run frames s))
          (length (Ornaments.bellData s) + k)
     = slot (Ornaments.bellsRef s) (length (Ornaments.bellData s) + k).
Proof.
  revert s. induction frames as [|[[ts t] dt] frames IH]; intros s.
  - repeat split.
  - rewrite run_cons.
    destruct (IH (Ornaments.useFrame ts t dt s)) as (Hg & Hr & Hb).
    simpl in Hg, Hr, Hb. rewrite Hg, Hr, Hb.
    repeat split; apply animateMesh_beyond.
Qed.

Lemma run_slots (frames : list (TreeState * R * R)) (s : Ornaments.State) :
  let slots := fmap (fun m => length (THREE.instanceMatrix m)) in
  slots (Ornaments.goldSpheresRef (run frames s))
  = slots (Ornaments.goldSpheresRef s)
  /\ slots (Ornaments.redBoxesRef (run frames s))
     = slots (Ornaments.redBoxesRef s)
  /\ slots (Ornaments.bellsRef (run frames s))
     = slots (Ornaments.bellsRef s).
Proof.
  intros slots. revert s.
  induction frames as [|[[ts t] dt] frames IH]; intros s.
  - repeat split.
  - rewrite run_cons.
    destruct (IH (Ornaments.useFrame ts t dt s)) as (-> & -> & ->).
    repeat split; apply animateMesh_slots.
Qed.

Lemma mounted_state (draws : nat -> R) (n0 : nat) :
  let s0 := (Ornaments.mounted draws n0).1 in
  Ornaments.goldSpheresRef s0 = Some (THREE.newInstancedMesh 450)
  /\ Ornaments.redBoxesRef s0 = Some (THREE.newInstancedMesh 450)
  /\ Ornaments.bellsRef s0 = Some (THREE.newInstancedMesh 450)
  /\ length (Ornaments.goldSphereData s0) = 180%nat
  /\ length (Ornaments.redBoxData s0) = 180%nat
  /\ length (Ornaments.bellData s0) = 90%nat.
Proof.
  unfold Ornaments.mounted, gbind.
  rewrite sphere_box_count, bell_count.
  pose proof (generateData_length draws 180 n0) as Hg.
  destruct (Ornaments.generateData 180 draws n0) as [gs n1].
  pose proof (generateData_length draws 180 n1) as Hr.
  destruct (Ornaments.generateData 180 draws n1) as [rb n2].
  pose proof (generateData_length draws 90 n2) as Hb.
  destruct (Ornaments.generateData 90 draws n2) as [bl n3].
  simpl in *. repeat split; assumption.
Qed.

(** C10: each of the three instanced meshes has [ORNAMENT_COUNT = 450]
    instance slots while its endpoint data has [floor(0.4·450) = 180]
    entries (spheres, boxes) or [floor(0.2·450) = 90] entries (bells); the
    update writes no slot at or beyond the length of the data, so after
    any run of frames every such slot still holds what it held when the
    component was mounted. *)
Theorem unwritten_instance_slots (draws : nat -> R) (n0 : nat)
    (frames : list (TreeState * R * R)) (k : nat) :
  let s0 := (Ornaments.mounted draws n0).1 in
  let s := run frames s0 in
  let slots := fmap (fun m => length (THREE.instanceMatrix m)) in
  (slots (Ornaments.goldSpheresRef s) = Some 450%nat
   /\ slots (Ornaments.redBoxesRef s) = Some 450%nat
   /\ slots (Ornaments.bellsRef s) = Some 450%nat)
  /\ (Math.floor (0.4 * 450) = 180%nat /\ Math.floor (0.2 * 450) = 90%nat)
  /\ (length (Ornaments.goldSphereData s) = 180%nat
      /\ length (Ornaments.redBoxData s) = 180%nat
      /\ length (Ornaments.bellData s) = 90%nat)
  /\ (slot (Ornaments.goldSpheresRef s) (180 + k)
      = slot (Ornaments.goldSpheresRef s0) (180 + k)
      /\ slot (Ornaments.redBoxesRef s) (180 + k)
         = slot (Ornaments.redBoxesRef s0) (180 + k)
      /\ slot (Ornaments.bellsRef s) (90 + k)
         = slot (Ornaments.bellsRef s0) (90 + k))
  /\ (forall ref data dt t target sm wb,
        slot (Ornaments.animateMesh ref data dt t target sm wb)
             (length data + k)
        = slot ref (length data + k)).
Proof.
  intros s0 s slots.
  destruct (mounted_state draws n0) as (Hg & Hr & Hb & Lg & Lr & Lb).
  fold s0 in Hg, Hr, Hb, Lg, Lr, Lb.
  destruct (run_data frames s0) as (Dg & Dr & Db).
  destruct (run_slots frames s0) as (Sg & Sr & Sb).
  destruct (run_beyond frames s0 k) as (Bg & Br & Bb).
  fold s in Dg, Dr, Db, Sg, Sr, Sb, Bg, Br, Bb.
  split; [|split; [|split; [|split]]].
  - fold slots in Sg, Sr, Sb. rewrite Sg, Sr, Sb, Hg, Hr, Hb.
    unfold slots, THREE.newInstancedMesh.
    cbn [fmap option_fmap option_map THREE.instanceMatrix].
    rewrite length_replicate. repeat split.
  - split; [rewrite (floor_IZR 180) | rewrite (floor_IZR 90)];
      try reflexivity; lra.
  - rewrite Dg, Dr, Db. repeat split; assumption.
  - rewrite Lg in Bg. rewrite Lr in Br. rewrite Lb in Bb.
    repeat split; assumption.
  - intros. apply animateMesh_beyond.
Qed.

(** ** A frame of zero duration *)

Lemma nextProgress_zero (p target : R) :
  Ornaments.nextProgress (Some p) 0 target = p.
Proof. unfold Ornaments.nextProgress. simpl. ring. Qed.

Lemma animateMesh_zero_idem (ref : option THREE.InstancedMesh)
    (data : list PositionData) (dt t target target' sm : R) (wb : bool) :
  Ornaments.animateMesh
    (Ornaments.animateMesh ref data dt t target sm wb)
    data 0 t target' sm wb
  = Ornaments.animateMesh ref data dt t target sm wb.
Proof.
  destruct ref as [mesh|]; [|reflexivity].
  unfold Ornaments.animateMesh.
  cbn [THREE.userData_progress THREE.instanceMatrix].
  rewrite nextProgress_zero, writeInstances_idem. reflexivity.
Qed.

Lemma updateStar_zero_idem (p dt t : R) (o : THREE.Object3D) :
  Ornaments.updateStar p 0 t (Ornaments.updateStar p dt t o)
  = Ornaments.updateStar p dt t o.
Proof.
  unfold Ornaments.updateStar.
  destruct (THREE.position o) as [[px py] pz],
           (THREE.rotation o) as [[rx ry] rz].
  cbn [THREE.position THREE.rotation].
  do 3 f_equal. ring.
Qed.

Lemma Ornaments_useFrame_zero_idem (ts : TreeState) (t dt : R)
    (s : Ornaments.State) :
  Ornaments.useFrame ts t 0 (Ornaments.useFrame ts t dt s)
  = Ornaments.useFrame ts t dt s.
Proof.
  unfold Ornaments.useFrame.
  cbn [Ornaments.goldSpheresRef Ornaments.redBoxesRef Ornaments.bellsRef
       Ornaments.starRef Ornaments.goldSphereData Ornaments.redBoxData
       Ornaments.bellData].
  rewrite !animateMesh_zero_idem.
  destruct (Ornaments.starRef s) as [o|]; [|reflexivity].
  rewrite updateStar_zero_idem. reflexivity.
Qed.

Lemma Foliage_useFrame_zero_idem (ts ts' : TreeState) (t dt : R)
    (m : option Foliage.ShaderMaterial) :
  Foliage.useFrame ts' t 0 (Foliage.useFrame ts t dt m)
  = Foliage.useFrame ts t dt m.
Proof.
  destruct m as [m|]; [|reflexivity].
  unfold Foliage.useFrame. cbn [Foliage.uProgress].
  f_equal. f_equal. ring.
Qed.

Lemma Ornaments_useFrame_zero_idem_retarget (ts ts' : TreeState) (t dt : R)
    (s : Ornaments.State) :
  is_Some (Ornaments.goldSpheresRef s) \/ ts' = ts ->
  Ornaments.useFrame ts' t 0 (Ornaments.useFrame ts t dt s)
  = Ornaments.useFrame ts t dt s.
Proof.
  intros [[mesh Hm]| ->]; [|apply Ornaments_useFrame_zero_idem].
  unfold Ornaments.useFrame.
  cbn [Ornaments.goldSpheresRef Ornaments.redBoxesRef Ornaments.bellsRef
       Ornaments.starRef Ornaments.goldSphereData Ornaments.redBoxData
       Ornaments.bellData].
  rewrite !animateMesh_zero_idem, Hm.
  destruct (Ornaments.starRef s) as [o|]; [|reflexivity].
  change (Ornaments.starProgress
            (Ornaments.animateMesh (Some mesh) (Ornaments.goldSphereData s)
               dt t (targetProgressOf ts) 1.0 false) ts')
    with (Ornaments.starProgress
            (Ornaments.animateMesh (Some mesh) (Ornaments.goldSphereData s)
               dt t (targetProgressOf ts) 1.0 false) ts).
  rewrite updateStar_zero_idem. reflexivity.
Qed.

Lemma updateStar_zero_rotation (p t : R) (o : THREE.Object3D) :
  THREE.rotation (Ornaments.updateStar p 0 t o) = THREE.rotation o.
Proof.
  unfold Ornaments.updateStar.
  destruct (THREE.position o) as [[px py] pz],
           (THREE.rotation o) as [[rx ry] rz].
  cbn [THREE.rotation]. do 2 f_equal. ring.
Qed.

(** C6 (amended): a per-frame update with [Δt = 0] on a state that a
    per-frame update at the same elapsed time has left changes nothing:
    the progress of every pool and of the particle field, every instance
    matrix and the transform of the apex element are what that frame
    left, also when the target state has changed since, provided the
    sphere mesh is present.  On any state such an update leaves the
    progress of every pool (an absent one being read as [0]) and of the
    particle field, and the rotation of the apex element, as they
    were. *)
Theorem zero_delta_frame_is_idempotent (ts ts' : TreeState) (t dt : R)
    (s : Ornaments.State) (m : option Foliage.ShaderMaterial) :
  is_Some (Ornaments.goldSpheresRef s) \/ ts' = ts ->
  Ornaments.useFrame ts' t 0 (Ornaments.useFrame ts t dt s)
  = Ornaments.useFrame ts t dt s
  /\ Foliage.useFrame ts t 0 (Foliage.useFrame ts t dt m)
     = Foliage.useFrame ts t dt m
  /\ (forall mesh data t' target sm wb,
        Ornaments.animateMesh (Some mesh) data 0 t' target sm wb
          ≫= THREE.userData_progress
        = Some (default 0 (THREE.userData_progress mesh)))
  /\ (forall m0 t',
        Foliage.uProgress <$> Foliage.useFrame ts t' 0 (Some m0)
        = Some (Foliage.uProgress m0))
  /\ (forall t',
        THREE.rotation <$> Ornaments.starRef (Ornaments.useFrame ts t' 0 s)
        = THREE.rotation <$> Ornaments.starRef s).
Proof.
  intros Hs. split; [|split; [|split; [|split]]].
  - apply Ornaments_useFrame_zero_idem_retarget, Hs.
  - apply Foliage_useFrame_zero_idem.
  - intros. rewrite animateMesh_progress. f_equal.
    unfold Ornaments.nextProgress. ring.
  - intros. rewrite useFrame_progress, nextProgress_zero. reflexivity.
  - intros t'. unfold Ornaments.useFrame. cbn [Ornaments.starRef].
    destruct (Ornaments.starRef s) as [o|]; [|reflexivity].
    cbn [fmap option_fmap option_map]. f_equal.
    apply updateStar_zero_rotation.
Qed.

Lemma zero_delta_frame_is_idempotent_witness :
  Ornaments.useFrame SCATTERED 1 0
    (Ornaments.useFrame TREE_SHAPE 1 0.25
       (Ornaments.mounted draws_half 0%nat).1)
  = Ornaments.useFrame TREE_SHAPE 1 0.25
      (Ornaments.mounted draws_half 0%nat).1.
Proof.
  apply (zero_delta_frame_is_idempotent TREE_SHAPE SCATTERED 1 0.25 _ None).
  left. destruct (mounted_state draws_half 0%nat) as (Hg & _).
  rewrite Hg. eexists. reflexivity.
Defined.

(** ** Endpoint generation *)

(** [Math.cbrt] is a cube root, and maps [[0,1)] into [[0,1)]. *)
Lemma cbrt_cube (x : R) : Math.cbrt x ^ 3 = x.
Proof.
  unfold Math.cbrt. rewrite pow3.
  destruct (Rlt_dec 0 x) as [Hp|Hp]; [|destruct (Rlt_dec x 0) as [Hn|Hn]].
  - rewrite <- !exp_plus.
    replace (ln x / 3 + ln x / 3 + ln x / 3) with (ln x) by field.
    apply exp_ln, Hp.
  - replace (- exp (ln (- x) / 3) * - exp (ln (- x) / 3)
             * - exp (ln (- x) / 3))
      with (- (exp (ln (- x) / 3) * exp (ln (- x) / 3)
               * exp (ln (- x) / 3))) by ring.
    rewrite <- !exp_plus.
    replace (ln (- x) / 3 + ln (- x) / 3 + ln (- x) / 3)
      with (ln (- x)) by field.
    rewrite exp_ln by lra. ring.
  - lra.
Qed.

Lemma cbrt_unit (w : R) : 0 <= w < 1 -> 0 <= Math.cbrt w < 1.
Proof.
  intros [H0 H1]. unfold Math.cbrt.
  destruct (Rlt_dec 0 w) as [Hp|Hp]; [|destruct (Rlt_dec w 0); lra].
  split; [left; apply exp_pos|].
  rewrite <- exp_0. apply exp_increasing.
  pose proof (ln_increasing w 1 Hp H1) as Hl. rewrite ln_1 in Hl. lra.
Qed.

Lemma cbrt_0 : Math.cbrt 0 = 0.
Proof.
  unfold Math.cbrt. destruct (Rlt_dec 0 0); [lra|]. reflexivity.
Qed.

Lemma spherical_dist (r theta phi h : R) :
  0 <= r ->
  dist (r * sin phi * cos theta, r * sin phi * sin theta + h, r * cos phi)
       (0, h, 0)
  = r.
Proof.
  intros Hr. unfold dist.
  pose proof (sin2_cos2 phi) as Hp. pose proof (sin2_cos2 theta) as Ht.
  unfold Rsqr in Hp, Ht.
  set (a := sin phi) in *. set (b := cos phi) in *.
  set (c := sin theta) in *. set (d := cos theta) in *.
  replace ((r * a * d - 0) * (r * a * d - 0)
           + (r * a * c + h - h) * (r * a * c + h - h)
           + (r * b - 0) * (r * b - 0))
    with (r * r * (a * a * (c * c + d * d) + b * b)) by ring.
  rewrite Ht. replace (a * a * 1 + b * b) with (a * a + b * b) by ring.
  rewrite Hp, Rmult_1_r. apply sqrt_square, Hr.
Qed.

Lemma Foliage_scatter_dist (u v w : R) :
  0 <= w < 1 ->
  dist (Foliage.scatterPoint u v w) scatterCenter
  = Math.cbrt w * TREE_CONFIG.SCATTER_RADIUS.
Proof.
  intros Hw. unfold Foliage.scatterPoint, scatterCenter.
  apply spherical_dist. pose proof (cbrt_unit w Hw).
  unfold TREE_CONFIG.SCATTER_RADIUS. nra.
Qed.

Lemma Ornaments_scatter_dist (u v : R) :
  dist (Ornaments.scatterPoint u v) scatterCenter
  = 0.9 * TREE_CONFIG.SCATTER_RADIUS.
Proof.
  unfold Ornaments.scatterPoint, scatterCenter.
  rewrite spherical_dist; [ring|].
  unfold TREE_CONFIG.SCATTER_RADIUS. lra.
Qed.

Lemma treeRadius_bounds (h q : R) :
  0 <= h < 1 -> 0 <= q < 1 ->
  0.7 * TREE_CONFIG.RADIUS_BASE * (1 - h) <= Foliage.treeRadius h q
  /\ Foliage.treeRadius h q < TREE_CONFIG.RADIUS_BASE * (1 - h).
Proof.
  unfold Foliage.treeRadius, Foliage.rAtH, TREE_CONFIG.RADIUS_BASE.
  intros Hh Hq. split; nra.
Qed.

Lemma treePoint_axisDist (i : nat) (h a q : R) :
  0 <= h < 1 -> 0 <= q < 1 ->
  axisDist (Foliage.treePoint i h a q) = Foliage.treeRadius h q.
Proof.
  intros Hh Hq. unfold Foliage.treePoint, axisDist.
  set (angle := INR i * 0.1 + a * PI * 2).
  pose proof (sin2_cos2 angle) as Ha. unfold Rsqr in Ha.
  set (r := Foliage.treeRadius h q).
  replace (cos angle * r * (cos angle * r) + sin angle * r * (sin angle * r))
    with (r * r * (sin angle * sin angle + cos angle * cos angle)) by ring.
  rewrite Ha, Rmult_1_r. apply sqrt_square.
  pose proof (treeRadius_bounds h q Hh Hq) as [Hlo _].
  unfold TREE_CONFIG.RADIUS_BASE in Hlo. unfold r. nra.
Qed.

Lemma particle_sample (draws : nat -> R) (i n : nat) :
  (Foliage.particle i draws n).1
  = {| Foliage.aTreePos :=
         Foliage.treePoint i (draws n) (draws (1 + n)%nat) (draws (2 + n)%nat);
       Foliage.aScatterPos :=
         Foliage.scatterPoint (draws (3 + n)%nat) (draws (4 + n)%nat)
           (draws (5 + n)%nat);
       Foliage.aRandom := draws (6 + n)%nat |}.
Proof. reflexivity. Qed.

Lemma ornament_sample (draws : nat -> R) (n : nat) :
  (Ornaments.ornament draws n).1
  = {| treePosition :=
         Ornaments.treePoint (draws n) (draws (1 + n)%nat) (draws (2 + n)%nat);
       scatterPosition :=
         Ornaments.scatterPoint (draws (3 + n)%nat) (draws (4 + n)%nat);
       Types.rotation := (draws (5 + n)%nat * PI, draws (6 + n)%nat * PI, 0);
       Types.scale := draws (7 + n)%nat * 0.3 + 0.2;
       type := box |}.
Proof. reflexivity. Qed.

Section GenerationInvariants.
Variable draws : nat -> R.

Lemma Foliage_generateFrom_Forall (P : Foliage.Particle -> Prop) :
  (forall i n, P (Foliage.particle i draws n).1) ->
  forall k i acc n,
    Forall P acc -> Forall P (Foliage.generateFrom k i acc draws n).1.
Proof.
  intros HP. induction k as [|k IH]; intros i acc n Hacc; simpl.
  - exact Hacc.
  - unfold gbind at 1. pose proof (HP i n) as Hp.
    destruct (Foliage.particle i draws n) as [p n'].
    apply IH. apply Forall_app. split; [exact Hacc|].
    apply Forall_singleton. exact Hp.
Qed.

Lemma Ornaments_generateData_Forall (P : PositionData -> Prop) :
  (forall n, P (Ornaments.ornament draws n).1) ->
  forall count n, Forall P (Ornaments.generateData count draws n).1.
Proof.
  intros HP count. unfold Ornaments.generateData.
  assert (H : forall k data n,
             Forall P data ->
             Forall P (Ornaments.generateFrom k data draws n).1).
  { induction k as [|k IH]; intros data n Hdata; simpl.
    - exact Hdata.
    - unfold gbind at 1. pose proof (HP n) as Hp.
      destruct (Ornaments.ornament draws n) as [d n'].
      apply IH. apply Forall_app. split; [exact Hdata|].
      apply Forall_singleton. exact Hp. }
  intros n. apply H. apply Forall_nil. exact I.
Qed.

Lemma mounted_data (n0 : nat) :
  let s0 := (Ornaments.mounted draws n0).1 in
  exists n1 n2,
    Ornaments.goldSphereData s0 = (Ornaments.generateData 180 draws n0).1
    /\ Ornaments.redBoxData s0 = (Ornaments.generateData 180 draws n1).1
    /\ Ornaments.bellData s0 = (Ornaments.generateData 90 draws n2).1.
Proof.
  unfold Ornaments.mounted, gbind.
  rewrite sphere_box_count, bell_count.
  destruct (Ornaments.generateData 180 draws n0) as [gs n1].
  destruct (Ornaments.generateData 180 draws n1) as [rb n2] eqn:Hrb.
  destruct (Ornaments.generateData 90 draws n2) as [bl n3] eqn:Hbl.
  exists n1, n2. rewrite Hrb, Hbl. repeat split.
Qed.

End GenerationInvariants.

Lemma particle_bounds (draws : nat -> R) (i n : nat) :
  unit_draws draws -> particle_in_bounds (Foliage.particle i draws n).1.
Proof.
  intros Hu. rewrite particle_sample. unfold particle_in_bounds.
  cbn [Foliage.aTreePos Foliage.aScatterPos].
  pose proof (Hu n) as Hh. pose proof (Hu (2 + n)%nat) as Hq.
  pose proof (Hu (5 + n)%nat) as Hw.
  rewrite treePoint_axisDist by assumption.
  rewrite Foliage_scatter_dist by assumption.
  assert (Hfrac : (Foliage.treePoint i (draws n) (draws (1 + n)%nat)
                     (draws (2 + n)%nat)).1.2 / TREE_CONFIG.HEIGHT
                  = draws n).
  { unfold Foliage.treePoint, TREE_CONFIG.HEIGHT. simpl. field. }
  rewrite Hfrac.
  pose proof (treeRadius_bounds (draws n) (draws (2 + n)%nat) Hh Hq)
    as [Hlo Hhi].
  pose proof (cbrt_unit _ Hw) as Hc.
  unfold TREE_CONFIG.SCATTER_RADIUS.
  repeat split; lra || nra.
Qed.

Lemma unit_draws_zero : unit_draws draws_zero.
Proof. intros n. unfold draws_zero. lra. Qed.

Lemma unit_draws_half : unit_draws draws_half.
Proof. intros n. unfold draws_half. lra. Qed.

Lemma unit_draws_low : unit_draws draws_low.
Proof. intros [|n]; simpl; lra. Qed.

(** C5 (as stated, radius strictly above [0.7·R·(1−h)]) fails: when the
    draw for the radius factor is [0], which [Math.random] may return, the
    particle of height fraction [0.5] is formed at exactly
    [0.7·R·(1−0.5)] from the axis. *)
Lemma radius_bound_not_strict :
  unit_draws draws_low
  /\ (Foliage.aTreePos (Foliage.particle 0%nat draws_low 0%nat).1).1.2
     / TREE_CONFIG.HEIGHT = 0.5
  /\ Foliage.treeRadius 0.5 0 = 0.7 * TREE_CONFIG.RADIUS_BASE * (1 - 0.5)
  /\ axisDist (Foliage.aTreePos (Foliage.particle 0%nat draws_low 0%nat).1)
     = 0.7 * TREE_CONFIG.RADIUS_BASE * (1 - 0.5)
  /\ ~ (axisDist (Foliage.aTreePos (Foliage.particle 0%nat draws_low 0%nat).1)
        > 0.7 * TREE_CONFIG.RADIUS_BASE * (1 - 0.5)).
Proof.
  assert (Hr : Foliage.treeRadius 0.5 0
               = 0.7 * TREE_CONFIG.RADIUS_BASE * (1 - 0.5)).
  { unfold Foliage.treeRadius, Foliage.rAtH. lra. }
  assert (Ha : axisDist (Foliage.aTreePos (Foliage.particle 0%nat draws_low 0%nat).1)
               = 0.7 * TREE_CONFIG.RADIUS_BASE * (1 - 0.5)).
  { rewrite particle_sample. cbn [Foliage.aTreePos draws_low Nat.add].
    rewrite treePoint_axisDist by lra. exact Hr. }
  split; [exact unit_draws_low|].
  split; [|split; [exact Hr|split; [exact Ha|rewrite Ha; lra]]].
  rewrite particle_sample. cbn [Foliage.aTreePos draws_low Nat.add].
  unfold Foliage.treePoint, TREE_CONFIG.HEIGHT. simpl. lra.
Qed.

(** C5 (amended): every generated particle of height fraction [h] is
    formed at a distance from the axis that is [≤ R·(1−h)] and
    [≥ 0.7·R·(1−h)], and every scattered endpoint, of a particle or of an
    ornament, is within [S] of the scatter centre. *)
Theorem endpoint_bounds (draws : nat -> R) (n count : nat) (h q : R) :
  unit_draws draws -> 0 <= h < 1 -> 0 <= q < 1 ->
  (0.7 * TREE_CONFIG.RADIUS_BASE * (1 - h) <= Foliage.treeRadius h q
   /\ Foliage.treeRadius h q <= TREE_CONFIG.RADIUS_BASE * (1 - h))
  /\ Forall particle_in_bounds (Foliage.generate draws n).1
  /\ Forall (fun d => dist (scatterPosition d) scatterCenter
                      <= TREE_CONFIG.SCATTER_RADIUS)
            (Ornaments.generateData count draws n).1.
Proof.
  intros Hu Hh Hq. split; [|split].
  - pose proof (treeRadius_bounds h q Hh Hq). lra.
  - unfold Foliage.generate. apply Foliage_generateFrom_Forall.
    + intros i m. apply particle_bounds, Hu.
    + apply Forall_nil. exact I.
  - apply Ornaments_generateData_Forall. intros m.
    rewrite ornament_sample. cbn [scatterPosition].
    rewrite Ornaments_scatter_dist. unfold TREE_CONFIG.SCATTER_RADIUS. lra.
Qed.

Lemma endpoint_bounds_witness :
  (0.7 * TREE_CONFIG.RADIUS_BASE * (1 - 0.5) <= Foliage.treeRadius 0.5 0
   /\ Foliage.treeRadius 0.5 0 <= TREE_CONFIG.RADIUS_BASE * (1 - 0.5))
  /\ Forall particle_in_bounds (Foliage.generate draws_half 0%nat).1
  /\ Forall (fun d => dist (scatterPosition d) scatterCenter
                      <= TREE_CONFIG.SCATTER_RADIUS)
            (Ornaments.generateData 3 draws_half 0%nat).1.
Proof.
  apply (endpoint_bounds draws_half 0%nat 3%nat 0.5 0).
  - intros n. unfold draws_half. lra.
  - lra.
  - lra.
Defined.

(** C4 (as stated, one rule for every pool) fails: on the same draws, all
    [0], the particle rule puts the scattered endpoint at the scatter
    centre (radius [cbrt(0)·S = 0]) while [generateData] puts it at
    distance [0.9·S = 13.5] from it. *)
Lemma ornament_scatter_differs :
  unit_draws draws_zero
  /\ dist (Foliage.aScatterPos (Foliage.particle 0%nat draws_zero 0%nat).1)
          scatterCenter = 0
  /\ dist (scatterPosition (Ornaments.ornament draws_zero 0%nat).1)
          scatterCenter = 13.5
  /\ scatterPosition (Ornaments.ornament draws_zero 0%nat).1
     <> scatter_rule_spec TREE_CONFIG.SCATTER_RADIUS 0 0 0.
Proof.
  assert (Hf : dist (Foliage.scatterPoint 0 0 0) scatterCenter = 0).
  { rewrite Foliage_scatter_dist by lra. rewrite cbrt_0. ring. }
  assert (Ho : dist (Ornaments.scatterPoint 0 0) scatterCenter = 13.5).
  { rewrite Ornaments_scatter_dist. unfold TREE_CONFIG.SCATTER_RADIUS. lra. }
  split; [exact unit_draws_zero|].
  split; [exact Hf|]. split; [exact Ho|].
  intros Heq. change (Ornaments.scatterPoint 0 0 = Foliage.scatterPoint 0 0 0)
    in Heq.
  rewrite Heq in Ho. lra.
Qed.

(** C4 (amended): the particle field generates its scattered endpoint by
    the spherical-coordinate rule with cube-root radius sampling inside
    the sphere of radius [S], moved up by half the height; the three
    ornament pools share one rule, [generateData], which uses the same
    two angles and the same vertical offset but the fixed radius [0.9·S]:
    every ornament is scattered at exactly [0.9·S] from the scatter
    centre. *)
Theorem scatter_rules (draws : nat -> R) (n : nat) :
  unit_draws draws ->
  let SR := TREE_CONFIG.SCATTER_RADIUS in
  let s0 := (Ornaments.mounted draws n).1 in
  let on_shell d := dist (scatterPosition d) scatterCenter = 0.9 * SR in
  (forall u v w, Foliage.scatterPoint u v w = scatter_rule_spec SR u v w)
  /\ (forall u v w, 0 <= w < 1 ->
        dist (Foliage.scatterPoint u v w) scatterCenter = Math.cbrt w * SR
        /\ Math.cbrt w ^ 3 = w)
  /\ Forall (fun p => exists u v w,
               0 <= w < 1
               /\ Foliage.aScatterPos p = scatter_rule_spec SR u v w)
            (Foliage.generate draws n).1
  /\ (forall u v,
        Ornaments.scatterPoint u v
        = (0.9 * SR * sin (acos (2 * v - 1)) * cos (2 * PI * u),
           0.9 * SR * sin (acos (2 * v - 1)) * sin (2 * PI * u)
             + TREE_CONFIG.HEIGHT / 2,
           0.9 * SR * cos (acos (2 * v - 1))))
  /\ (forall u v,
        dist (Ornaments.scatterPoint u v) scatterCenter = 0.9 * SR)
  /\ Forall on_shell (Ornaments.goldSphereData s0)
  /\ Forall on_shell (Ornaments.redBoxData s0)
  /\ Forall on_shell (Ornaments.bellData s0).
Proof.
  intros Hu SR s0 on_shell.
  assert (Hshell : forall count m,
             Forall on_shell (Ornaments.generateData count draws m).1).
  { apply Ornaments_generateData_Forall. intros m.
    rewrite ornament_sample. unfold on_shell. cbn [scatterPosition].
    apply Ornaments_scatter_dist. }
  destruct (mounted_data draws n) as (n1 & n2 & Hg & Hr & Hb).
  fold s0 in Hg, Hr, Hb.
  split; [|split; [|split; [|split; [|split; [|split; [|split]]]]]].
  - reflexivity.
  - intros u v w Hw. split; [apply Foliage_scatter_dist, Hw|apply cbrt_cube].
  - unfold Foliage.generate. apply Foliage_generateFrom_Forall.
    + intros i m. rewrite particle_sample. cbn [Foliage.aScatterPos].
      exists (draws (3 + m)%nat), (draws (4 + m)%nat), (draws (5 + m)%nat).
      split; [apply Hu | reflexivity].
    + apply Forall_nil. exact I.
  - intros u v. unfold Ornaments.scatterPoint, SR.
    f_equal; [f_equal|]; ring.
  - intros u v. apply Ornaments_scatter_dist.
  - rewrite Hg. apply Hshell.
  - rewrite Hr. apply Hshell.
  - rewrite Hb. apply Hshell.
Qed.

Lemma scatter_rules_witness :
  Forall (fun d => dist (scatterPosition d) scatterCenter
                   = 0.9 * TREE_CONFIG.SCATTER_RADIUS)
         (Ornaments.bellData (Ornaments.mounted draws_half 0%nat).1).
Proof.
  destruct (scatter_rules draws_half 0%nat) as (_ & _ & _ & _ & _ & _ & _ & H).
  - intros n. unfold draws_half. lra.
  - exact H.
Defined.

(** * Further properties of the code *)

(** ** The integrator as a contraction *)

Lemma nextProgress_affine (p dt target : R) :
  Ornaments.nextProgress (Some p) dt target - target
  = (p - target) * (1 - ANIMATION_CONFIG.TRANSITION_SPEED * dt).
Proof. unfold Ornaments.nextProgress. simpl. ring. Qed.

Lemma integrate_decay (target p0 : R) (dts : list R) :
  integrate target p0 dts = target + (p0 - target) * decay dts.
Proof.
  revert p0. induction dts as [|dt dts IH]; intros p0.
  - unfold integrate, decay. simpl. ring.
  - change (integrate target p0 (dt :: dts))
      with (integrate target (Ornaments.nextProgress (Some p0) dt target) dts).
    rewrite IH.
    change (decay (dt :: dts))
      with ((1 - ANIMATION_CONFIG.TRANSITION_SPEED * dt) * decay dts).
    pose proof (nextProgress_affine p0 dt target) as Ha.
    replace (Ornaments.nextProgress (Some p0) dt target - target)
      with ((p0 - target) * (1 - ANIMATION_CONFIG.TRANSITION_SPEED * dt)).
    ring.
Qed.

Lemma decay_replicate (n : nat) (dt : R) :
  decay (replicate n dt) = (1 - ANIMATION_CONFIG.TRANSITION_SPEED * dt) ^ n.
Proof.
  induction n as [|n IH]; [reflexivity|].
  change (decay (replicate (S n) dt))
    with ((1 - ANIMATION_CONFIG.TRANSITION_SPEED * dt) * decay (replicate n dt)).
  rewrite IH. reflexivity.
Qed.

Lemma decay_Permutation (dts dts' : list R) :
  Permutation dts dts' -> decay dts = decay dts'.
Proof.
  induction 1 as [|x l l' _ IH|x y l|l l' l'' _ IH1 _ IH2].
  - reflexivity.
  - unfold decay in *. simpl. rewrite IH. reflexivity.
  - unfold decay. simpl. ring.
  - congruence.
Qed.

(** X1: the progress after any frames toward one target has a closed
    form: the distance to the target is the initial distance times the
    product of [1 − k·Δt] over the frames; for [n] frames of equal
    duration that product is [(1 − k·Δt)^n]. *)
Theorem integrate_closed_form (target p0 : R) (dts : list R) (n : nat)
    (dt : R) :
  integrate target p0 dts = target + (p0 - target) * decay dts
  /\ integrate target p0 (replicate n dt)
     = target
       + (p0 - target) * (1 - ANIMATION_CONFIG.TRANSITION_SPEED * dt) ^ n.
Proof.
  split.
  - apply integrate_decay.
  - rewrite integrate_decay, decay_replicate. reflexivity.
Qed.

(** X2: toward a fixed target the progress reached does not depend on the
    order in which the frame durations occur. *)
Theorem integrate_order_independent (target p0 : R) (dts dts' : list R) :
  Permutation dts dts' ->
  integrate target p0 dts = integrate target p0 dts'.
Proof.
  intros Hp. rewrite !integrate_decay, (decay_Permutation _ _ Hp).
  reflexivity.
Qed.

Lemma integrate_order_independent_witness :
  integrate 1 0 [0.1; 0.3; 0.2] = integrate 1 0 [0.3; 0.2; 0.1].
Proof.
  apply integrate_order_independent.
  apply perm_trans with (l' := [0.3; 0.1; 0.2]).
  - apply perm_swap.
  - apply perm_skip, perm_swap.
Defined.

(** X3: one frame multiplies the distance to the target by [|1 − k·Δt|]:
    for [0 ≤ Δt ≤ 1] (that is [k·Δt ≤ 2]) the distance never grows, and
    for [Δt > 1] it grows whenever the progress is not at the target. *)
Theorem step_distance (p dt target : R) :
  Rabs (Ornaments.nextProgress (Some p) dt target - target)
  = Rabs (1 - ANIMATION_CONFIG.TRANSITION_SPEED * dt) * Rabs (p - target)
  /\ (0 <= dt <= 1 ->
      Rabs (Ornaments.nextProgress (Some p) dt target - target)
      <= Rabs (p - target))
  /\ (1 < dt -> p <> target ->
      Rabs (p - target)
      < Rabs (Ornaments.nextProgress (Some p) dt target - target)).
Proof.
  assert (He : Rabs (Ornaments.nextProgress (Some p) dt target - target)
               = Rabs (1 - ANIMATION_CONFIG.TRANSITION_SPEED * dt)
                 * Rabs (p - target)).
  { rewrite nextProgress_affine, Rabs_mult. ring. }
  pose proof (Rabs_pos (p - target)) as Hpos.
  unfold ANIMATION_CONFIG.TRANSITION_SPEED in *.
  split; [exact He|split].
  - intros Hdt. rewrite He.
    assert (Rabs (1 - 2.0 * dt) <= 1) by (apply Rabs_le; lra).
    nra.
  - intros Hdt Hne. rewrite He.
    assert (1 < Rabs (1 - 2.0 * dt)).
    { rewrite Rabs_left by lra. lra. }
    assert (0 < Rabs (p - target)) by (apply Rabs_pos_lt; lra).
    nra.
Qed.

Lemma step_distance_witness :
  Rabs (Ornaments.nextProgress (Some 0.3) 0.75 1 - 1) <= Rabs (0.3 - 1)
  /\ Rabs (0.3 - 1) < Rabs (Ornaments.nextProgress (Some 0.3) 1.5 1 - 1).
Proof.
  split.
  - apply (step_distance 0.3 0.75 1). lra.
  - apply (step_distance 0.3 1.5 1); lra.
Defined.

(** X4: for a frame with [0 ≤ Δt ≤ 1/k] the new progress lies between the
    old progress and the target, whatever these two are: a step never
    passes its target and never moves away from it. *)
Theorem step_between (p dt target : R) :
  short_frame dt ->
  between p target (Ornaments.nextProgress (Some p) dt target).
Proof.
  unfold short_frame, between, Ornaments.nextProgress,
    ANIMATION_CONFIG.TRANSITION_SPEED. simpl.
  intros [H0 H1]. unfold Rmin, Rmax.
  destruct (Rle_dec p target); split; nra.
Qed.

Lemma step_between_witness :
  between 0.3 0 (Ornaments.nextProgress (Some 0.3) 0.25 0).
Proof.
  apply step_between.
  unfold short_frame, ANIMATION_CONFIG.TRANSITION_SPEED. lra.
Defined.

(** X5: a frame lands exactly on the target if and only if the progress
    was already there or the frame lasted exactly [1/k]; in particular a
    progress at its target stays there for every frame duration. *)
Theorem step_reaches_target_iff (p dt target : R) :
  (Ornaments.nextProgress (Some p) dt target = target
   <-> p = target \/ dt = / ANIMATION_CONFIG.TRANSITION_SPEED)
  /\ Ornaments.nextProgress (Some target) dt target = target.
Proof.
  split.
  - pose proof (nextProgress_affine p dt target) as Ha.
    unfold ANIMATION_CONFIG.TRANSITION_SPEED in *. split.
    + intros He. rewrite He in Ha.
      replace (target - target) with 0 in Ha by ring.
      symmetry in Ha. apply Rmult_integral in Ha.
      destruct Ha; [left|right]; lra.
    + intros [->| ->].
      * unfold Ornaments.nextProgress. simpl. ring.
      * unfold Ornaments.nextProgress, ANIMATION_CONFIG.TRANSITION_SPEED.
        simpl. replace (/ 2.0) with 0.5 by lra. lra.
  - unfold Ornaments.nextProgress. simpl. ring.
Qed.

(** ** Progress over a run of frames with changing targets *)

Lemma targetProgressOf_cases (ts : TreeState) :
  targetProgressOf ts = 0 \/ targetProgressOf ts = 1.
Proof. destruct ts; simpl; [left|right]; lra. Qed.

Lemma track_cons (ts : TreeState) (t dt : R)
    (frames : list (TreeState * R * R)) (p0 : R) :
  track ((ts, t, dt) :: frames) p0
  = track frames (Ornaments.nextProgress (Some p0) dt (targetProgressOf ts)).
Proof. reflexivity. Qed.

Lemma short_frames_cons (ts : TreeState) (t dt : R)
    (frames : list (TreeState * R * R)) :
  short_frames ((ts, t, dt) :: frames) ->
  short_frame dt /\ short_frames frames.
Proof. intros H. apply Forall_cons in H. exact H. Qed.

Lemma step_unit (p dt : R) (ts : TreeState) :
  short_frame dt -> 0 <= p <= 1 ->
  0 <= Ornaments.nextProgress (Some p) dt (targetProgressOf ts) <= 1.
Proof.
  unfold short_frame, Ornaments.nextProgress,
    ANIMATION_CONFIG.TRANSITION_SPEED.
  intros [H0 H1] Hp.
  destruct (targetProgressOf_cases ts) as [Ht|Ht]; rewrite Ht; simpl;
    split; nra.
Qed.

Lemma track_unit (frames : list (TreeState * R * R)) (p0 : R) :
  short_frames frames -> 0 <= p0 <= 1 -> 0 <= track frames p0 <= 1.
Proof.
  revert p0. induction frames as [|[[ts t] dt] frames IH]; intros p0 Hs Hp.
  - exact Hp.
  - apply short_frames_cons in Hs as [Hdt Hs]. rewrite track_cons.
    apply IH; [exact Hs|]. apply step_unit; assumption.
Qed.

Lemma animateMesh_poolProgress (ref : option THREE.InstancedMesh)
    (data : list PositionData) (dt t target sm : R) (wb : bool) :
  is_Some ref ->
  is_Some (Ornaments.animateMesh ref data dt t target sm wb)
  /\ poolProgress (Ornaments.animateMesh ref data dt t target sm wb)
     = Ornaments.nextProgress (Some (poolProgress ref)) dt target.
Proof.
  intros [mesh ->]. split; [eexists; reflexivity|reflexivity].
Qed.

Lemma run_poolProgress (frames : list (TreeState * R * R))
    (s : Ornaments.State) :
  is_Some (Ornaments.goldSpheresRef s) ->
  is_Some (Ornaments.redBoxesRef s) ->
  is_Some (Ornaments.bellsRef s) ->
  poolProgress (Ornaments.goldSpheresRef (run frames s))
  = track frames (poolProgress (Ornaments.goldSpheresRef s))
  /\ poolProgress (Ornaments.redBoxesRef (run frames s))
     = track frames (poolProgress (Ornaments.redBoxesRef s))
  /\ poolProgress (Ornaments.bellsRef (run frames s))
     = track frames (poolProgress (Ornaments.bellsRef s)).
Proof.
  revert s. induction frames as [|[[ts t] dt] frames IH]; intros s Hg Hr Hb.
  - repeat split.
  - rewrite run_cons, !track_cons.
    destruct (animateMesh_poolProgress (Ornaments.goldSpheresRef s)
                (Ornaments.goldSphereData s) dt t (targetProgressOf ts)
                1.0 false Hg) as [Sg Pg].
    destruct (animateMesh_poolProgress (Ornaments.redBoxesRef s)
                (Ornaments.redBoxData s) dt t (targetProgressOf ts)
                1.3 false Hr) as [Sr Pr].
    destruct (animateMesh_poolProgress (Ornaments.bellsRef s)
                (Ornaments.bellData s) dt t (targetProgressOf ts)
                1.0 true Hb) as [Sb Pb].
    rewrite <- Pg, <- Pr, <- Pb.
    apply (IH (Ornaments.useFrame ts t dt s)); assumption.
Qed.

Lemma mounted_refs (draws : nat -> R) (n : nat) :
  let s0 := (Ornaments.mounted draws n).1 in
  (is_Some (Ornaments.goldSpheresRef s0)
   /\ is_Some (Ornaments.redBoxesRef s0)
   /\ is_Some (Ornaments.bellsRef s0))
  /\ poolProgress (Ornaments.goldSpheresRef s0) = 0
  /\ poolProgress (Ornaments.redBoxesRef s0) = 0
  /\ poolProgress (Ornaments.bellsRef s0) = 0.
Proof.
  destruct (mounted_state draws n) as (Hg & Hr & Hb & _).
  simpl. rewrite Hg, Hr, Hb.
  repeat split; solve [eexists; reflexivity | reflexivity].
Qed.

Lemma run_mounted_progress (draws : nat -> R) (n : nat)
    (frames : list (TreeState * R * R)) :
  let s := run frames (Ornaments.mounted draws n).1 in
  poolProgress (Ornaments.goldSpheresRef s) = track frames 0
  /\ poolProgress (Ornaments.redBoxesRef s) = track frames 0
  /\ poolProgress (Ornaments.bellsRef s) = track frames 0.
Proof.
  intros s.
  destruct (mounted_refs draws n) as ((Sg & Sr & Sb) & Pg & Pr & Pb).
  destruct (run_poolProgress frames _ Sg Sr Sb) as (Hg & Hr & Hb).
  rewrite Pg in Hg. rewrite Pr in Hr. rewrite Pb in Hb.
  fold s in Hg, Hr, Hb.
  rewrite Hr, Hb, Hg. repeat split.
Qed.

(** X6: from the mounted component, after any frames, whatever their
    durations and however the target state changes between them, the
    sphere, box and bell pools hold the same progress, the one that the
    integrator gives from [0] over these frames: the pools never drift
    apart. *)
Theorem pools_stay_synchronised (draws : nat -> R) (n : nat)
    (frames : list (TreeState * R * R)) :
  let s := run frames (Ornaments.mounted draws n).1 in
  let p := poolProgress (Ornaments.goldSpheresRef s) in
  p = track frames 0
  /\ poolProgress (Ornaments.redBoxesRef s) = p
  /\ poolProgress (Ornaments.bellsRef s) = p.
Proof.
  intros s p.
  destruct (run_mounted_progress draws n frames) as (Hg & Hr & Hb).
  fold s in Hg, Hr, Hb. fold p in Hg.
  rewrite Hr, Hb, Hg. repeat split.
Qed.

(** X7: from the mounted component, when every frame has
    [0 ≤ Δt ≤ 1/k], the progress of every pool stays in [[0,1]] however
    the target state changes between frames. *)
Theorem progress_stays_in_unit_interval (draws : nat -> R) (n : nat)
    (frames : list (TreeState * R * R)) :
  short_frames frames ->
  let s := run frames (Ornaments.mounted draws n).1 in
  0 <= poolProgress (Ornaments.goldSpheresRef s) <= 1
  /\ 0 <= poolProgress (Ornaments.redBoxesRef s) <= 1
  /\ 0 <= poolProgress (Ornaments.bellsRef s) <= 1.
Proof.
  intros Hs s.
  destruct (run_mounted_progress draws n frames) as (Hg & Hr & Hb).
  fold s in Hg, Hr, Hb.
  pose proof (track_unit frames 0 Hs ltac:(lra)) as Hu.
  rewrite Hr, Hb, Hg. split; [exact Hu|split; exact Hu].
Qed.

Lemma short_frames_intro (frames : list (TreeState * R * R)) :
  Forall (fun f => 0 <= f.2 <= 0.5) frames -> short_frames frames.
Proof.
  intros H. eapply Forall_impl; [exact H|].
  intros f Hf. apply short_frame_intro, Hf.
Qed.

Lemma progress_stays_in_unit_interval_witness :
  0 <= poolProgress
         (Ornaments.bellsRef
            (run [(TREE_SHAPE, 0.1, 0.1); (SCATTERED, 0.6, 0.5)]
               (Ornaments.mounted draws_half 0%nat).1)) <= 1.
Proof.
  destruct (progress_stays_in_unit_interval draws_half 0%nat
              [(TREE_SHAPE, 0.1, 0.1); (SCATTERED, 0.6, 0.5)])
    as (_ & _ & H); [|exact H].
  apply short_frames_intro.
  repeat (apply List.Forall_cons; [simpl; lra|]). apply List.Forall_nil.
Defined.

(** ** The apex element *)

Lemma updateStar_fields (p dt t : R) (o : THREE.Object3D) :
  THREE.position (Ornaments.updateStar p dt t o)
  = ((THREE.position o).1.1,
     THREE.MathUtils.lerp (TREE_CONFIG.HEIGHT + 5) TREE_CONFIG.HEIGHT p,
     (THREE.position o).2)
  /\ THREE.rotation (Ornaments.updateStar p dt t o)
     = add_y (THREE.rotation o) (dt * 0.5)
  /\ THREE.scale (Ornaments.updateStar p dt t o)
     = THREE.setScalar ((1 + sin (t * 3) * 0.1) * p).
Proof.
  unfold Ornaments.updateStar, add_y.
  destruct (THREE.position o) as [[px py] pz],
           (THREE.rotation o) as [[rx ry] rz].
  repeat split.
Qed.

Lemma breathing_range (t : R) : 0.9 <= 1 + sin (t * 3) * 0.1 <= 1.1.
Proof. pose proof (SIN_bound (t * 3)). lra. Qed.

Lemma updateStar_in_range (p dt t : R) (o : THREE.Object3D) :
  0 <= p <= 1 -> star_in_range (Ornaments.updateStar p dt t o).
Proof.
  intros Hp. destruct (updateStar_fields p dt t o) as (Hpos & _ & Hsc).
  unfold star_in_range. rewrite Hpos, Hsc. split.
  - unfold THREE.MathUtils.lerp, TREE_CONFIG.HEIGHT. simpl. lra.
  - exists ((1 + sin (t * 3) * 0.1) * p). split; [reflexivity|].
    pose proof (breathing_range t). nra.
Qed.

(** X8: for a progress [p] in [[0,1]] the apex element is placed between
    its formed height [H] and [H + 5] and scaled uniformly by the
    breathing factor [(1 + 0.1·sin 3t)·p ∈ [0.9p, 1.1p]]; at [p = 0] it is
    at [H + 5] with scale [0], at [p = 1] at [H]; its [x], [z] and its
    rotation about [x] and [z] are left as they were. *)
Theorem star_placement (p dt t : R) (o : THREE.Object3D) :
  0 <= p <= 1 ->
  let o' := Ornaments.updateStar p dt t o in
  let o0 := Ornaments.updateStar 0 dt t o in
  let o1 := Ornaments.updateStar 1 dt t o in
  (TREE_CONFIG.HEIGHT <= (THREE.position o').1.2 <= TREE_CONFIG.HEIGHT + 5
   /\ exists c, THREE.scale o' = (c, c, c) /\ 0.9 * p <= c <= 1.1 * p)
  /\ ((THREE.position o0).1.2 = TREE_CONFIG.HEIGHT + 5
      /\ THREE.scale o0 = (0, 0, 0))
  /\ (THREE.position o1).1.2 = TREE_CONFIG.HEIGHT
  /\ ((THREE.position o').1.1 = (THREE.position o).1.1
      /\ (THREE.position o').2 = (THREE.position o).2
      /\ THREE.rotation o' = add_y (THREE.rotation o) (dt * 0.5)).
Proof.
  intros Hp o' o0 o1.
  destruct (updateStar_fields p dt t o) as (Hpos & Hrot & Hsc).
  destruct (updateStar_fields 0 dt t o) as (Hpos0 & _ & Hsc0).
  destruct (updateStar_fields 1 dt t o) as (Hpos1 & _ & _).
  fold o' in Hpos, Hrot, Hsc. fold o0 in Hpos0, Hsc0. fold o1 in Hpos1.
  rewrite Hpos, Hpos0, Hpos1, Hsc, Hsc0, Hrot.
  pose proof (breathing_range t) as Hb.
  unfold THREE.MathUtils.lerp, THREE.setScalar, TREE_CONFIG.HEIGHT. simpl.
  split; [split; [lra|]|split; [split|split]].
  - exists ((1 + sin (t * 3) * 0.1) * p). split; [reflexivity|nra].
  - lra.
  - f_equal; [f_equal|]; ring.
  - lra.
  - repeat split.
Qed.

Lemma star_placement_witness :
  TREE_CONFIG.HEIGHT
  <= (THREE.position
        (Ornaments.updateStar 0.5 0.016 2
           {| THREE.position := (0, 9, 0); THREE.rotation := (0, 0, 0);
              THREE.scale := (1, 1, 1) |})).1.2
  <= TREE_CONFIG.HEIGHT + 5.
Proof.
  apply (star_placement 0.5 0.016 2). lra.
Defined.

Lemma totalDelta_cons (ts : TreeState) (t dt : R)
    (frames : list (TreeState * R * R)) :
  totalDelta ((ts, t, dt) :: frames) = dt + totalDelta frames.
Proof. reflexivity. Qed.

Lemma add_y_add_y (v : Vec3) (a b : R) :
  add_y (add_y v a) b = add_y v (a + b).
Proof. unfold add_y. simpl. f_equal. f_equal. ring. Qed.

Lemma useFrame_star (ts : TreeState) (t dt : R) (s : Ornaments.State) :
  is_Some (Ornaments.goldSpheresRef s) ->
  Ornaments.starRef (Ornaments.useFrame ts t dt s)
  = Ornaments.updateStar
      (poolProgress (Ornaments.goldSpheresRef (Ornaments.useFrame ts t dt s)))
      dt t
    <$> Ornaments.starRef s.
Proof.
  intros [mesh Hm]. unfold Ornaments.useFrame.
  cbn [Ornaments.starRef Ornaments.goldSpheresRef]. rewrite Hm.
  destruct (Ornaments.starRef s); reflexivity.
Qed.

Lemma run_star (frames : list (TreeState * R * R)) (s : Ornaments.State)
    (o : THREE.Object3D) :
  is_Some (Ornaments.goldSpheresRef s) ->
  0 <= poolProgress (Ornaments.goldSpheresRef s) <= 1 ->
  short_frames frames ->
  Ornaments.starRef s = Some o -> star_in_range o ->
  exists o',
    Ornaments.starRef (run frames s) = Some o'
    /\ star_in_range o'
    /\ (THREE.position o').1.1 = (THREE.position o).1.1
    /\ (THREE.position o').2 = (THREE.position o).2
    /\ THREE.rotation o'
       = add_y (THREE.rotation o) (0.5 * totalDelta frames).
Proof.
  revert s o.
  induction frames as [|[[ts t] dt] frames IH]; intros s o Hg Hp Hs Ho Hr.
  - exists o.
    split; [exact Ho|split; [exact Hr|split; [reflexivity|split]]];
      [reflexivity|].
    unfold add_y, totalDelta. simpl.
    destruct (THREE.rotation o) as [[rx ry] rz]. simpl.
    f_equal. f_equal. ring.
  - apply short_frames_cons in Hs as [Hdt Hs]. rewrite run_cons.
    destruct (animateMesh_poolProgress (Ornaments.goldSpheresRef s)
                (Ornaments.goldSphereData s) dt t (targetProgressOf ts)
                1.0 false Hg) as [Sg Pg].
    pose proof (step_unit _ dt ts Hdt Hp) as Hp'. rewrite <- Pg in Hp'.
    set (s' := Ornaments.useFrame ts t dt s).
    set (p' := poolProgress (Ornaments.goldSpheresRef s')).
    assert (Hstar : Ornaments.starRef s'
                    = Some (Ornaments.updateStar p' dt t o)).
    { unfold s', p'. rewrite (useFrame_star ts t dt s Hg), Ho.
      reflexivity. }
    destruct (IH s' (Ornaments.updateStar p' dt t o) Sg Hp' Hs Hstar
                (updateStar_in_range p' dt t o Hp'))
      as (o' & Ho' & Hr' & Hx & Hz & Hrot).
    destruct (updateStar_fields p' dt t o) as (Hpos1 & Hrot1 & _).
    exists o'. rewrite Hx, Hz, Hrot, Hpos1, Hrot1, add_y_add_y,
      totalDelta_cons.
    split; [exact Ho'|split; [exact Hr'|split; [reflexivity|split]]];
      [reflexivity|].
    f_equal. ring.
Qed.

(** X9: from the mounted component, when every frame has
    [0 ≤ Δt ≤ 1/k], after any frames the apex element is on the axis at a
    height between [H] and [H + 5], its scale is uniform and at most
    [1.1], and it has turned about [y] by half the time the frames add up
    to. *)
Theorem star_over_run (draws : nat -> R) (n : nat)
    (frames : list (TreeState * R * R)) :
  short_frames frames ->
  exists o,
    Ornaments.starRef (run frames (Ornaments.mounted draws n).1) = Some o
    /\ star_in_range o
    /\ (THREE.position o).1.1 = 0 /\ (THREE.position o).2 = 0
    /\ THREE.rotation o = (0, 0.5 * totalDelta frames, 0).
Proof.
  intros Hs.
  destruct (mounted_refs draws n) as ((Sg & _ & _) & Pg & _).
  set (o0 := {| THREE.position := (0, TREE_CONFIG.HEIGHT, 0);
               THREE.rotation := (0, 0, 0);
               THREE.scale := (1, 1, 1) |}).
  assert (Ho : Ornaments.starRef (Ornaments.mounted draws n).1 = Some o0).
  { unfold Ornaments.mounted, gbind.
    destruct (Ornaments.generateData _ draws n) as [gs n1].
    destruct (Ornaments.generateData _ draws n1) as [rb n2].
    destruct (Ornaments.generateData _ draws n2) as [bl n3].
    reflexivity. }
  assert (Hr : star_in_range o0).
  { unfold star_in_range, o0, TREE_CONFIG.HEIGHT. simpl.
    split; [lra|]. exists 1. split; [reflexivity|lra]. }
  destruct (run_star frames _ o0 Sg ltac:(rewrite Pg; lra) Hs Ho Hr)
    as (o & Hso & Hro & Hx & Hz & Hrot).
  exists o.
  split; [exact Hso|split; [exact Hro|split; [exact Hx|split]]];
    [exact Hz|].
  rewrite Hrot. unfold add_y, o0. simpl. f_equal. f_equal. ring.
Qed.

Lemma star_over_run_witness :
  exists o,
    Ornaments.starRef
      (run [(TREE_SHAPE, 0.1, 0.1); (SCATTERED, 0.6, 0.5)]
         (Ornaments.mounted draws_half 0%nat).1) = Some o
    /\ star_in_range o
    /\ (THREE.position o).1.1 = 0 /\ (THREE.position o).2 = 0
    /\ THREE.rotation o
       = (0, 0.5 * totalDelta [(TREE_SHAPE, 0.1, 0.1); (SCATTERED, 0.6, 0.5)],
          0).
Proof.
  apply star_over_run. apply short_frames_intro.
  repeat (apply List.Forall_cons; [simpl; lra|]). apply List.Forall_nil.
Defined.

(** ** The inner core and the scene group *)

Lemma InnerTreeCore_step (ts : TreeState) (dt : R) (m : THREE.Object3D) :
  Scene.InnerTreeCore_useFrame ts dt (Some m)
  = Some {| THREE.position := THREE.position m;
            THREE.rotation := THREE.rotation m;
            THREE.scale :=
              THREE.setScalar
                (Ornaments.nextProgress (Some (THREE.scale m).1.2) dt
                   (targetProgressOf ts)) |}.
Proof. reflexivity. Qed.

Lemma runCore_cons (ts : TreeState) (t dt : R)
    (frames : list (TreeState * R * R)) (m : option THREE.Object3D) :
  runCore ((ts, t, dt) :: frames) m
  = runCore frames (Scene.InnerTreeCore_useFrame ts dt m).
Proof. reflexivity. Qed.

Lemma runCore_uniform (frames : list (TreeState * R * R))
    (m : THREE.Object3D) (c : R) :
  THREE.scale m = THREE.setScalar c ->
  runCore frames (Some m)
  = Some {| THREE.position := THREE.position m;
            THREE.rotation := THREE.rotation m;
            THREE.scale := THREE.setScalar (track frames c) |}.
Proof.
  revert m c. induction frames as [|[[ts t] dt] frames IH]; intros m c Hc.
  - simpl. rewrite <- Hc. destruct m; reflexivity.
  - rewrite runCore_cons, InnerTreeCore_step, track_cons, Hc.
    erewrite (IH _ (Ornaments.nextProgress (Some c) dt (targetProgressOf ts)));
      reflexivity.
Qed.

(** X10: the inner core integrates its [y] scale by the law of the pools
    and writes the result to all three axes: after at least one frame its
    scale is uniform, equal to the progress that the frames give from the
    [y] scale it had (its [x] and [z] scale are forgotten), and its
    position and rotation are never changed. *)
Theorem core_scale_follows_integrator (f : TreeState * R * R)
    (frames : list (TreeState * R * R)) (m : THREE.Object3D) :
  runCore (f :: frames) (Some m)
  = Some {| THREE.position := THREE.position m;
            THREE.rotation := THREE.rotation m;
            THREE.scale :=
              THREE.setScalar (track (f :: frames) (THREE.scale m).1.2) |}.
Proof.
  destruct f as [[ts t] dt].
  rewrite runCore_cons, InnerTreeCore_step, track_cons.
  rewrite (runCore_uniform frames _
             (Ornaments.nextProgress (Some (THREE.scale m).1.2) dt
                (targetProgressOf ts))); reflexivity.
Qed.

Lemma track_at_target (ts : TreeState) (frames : list (TreeState * R * R)) :
  Forall (fun f => f.1.1 = ts) frames ->
  track frames (targetProgressOf ts) = targetProgressOf ts.
Proof.
  induction frames as [|[[ts' t] dt] frames IH]; intros Hf.
  - reflexivity.
  - apply Forall_cons in Hf as [Hts Hf]. simpl in Hts. subst ts'.
    rewrite track_cons.
    replace (Ornaments.nextProgress (Some (targetProgressOf ts)) dt
               (targetProgressOf ts)) with (targetProgressOf ts).
    + apply IH, Hf.
    + unfold Ornaments.nextProgress. simpl. ring.
Qed.

(** X11: while the target stays the initial state of the application
    ([TREE_SHAPE]) the inner core, mounted at scale [1], is not moved by
    any frame, of whatever duration; the particle field and the pools,
    which start at progress [0], are only stationary once at the
    target. *)
Theorem core_rests_at_initial_target (frames : list (TreeState * R * R)) :
  Forall (fun f => f.1.1 = App.initialTreeState) frames ->
  runCore frames (Some Scene.coreMounted) = Some Scene.coreMounted
  /\ track frames (targetProgressOf App.initialTreeState)
     = targetProgressOf App.initialTreeState.
Proof.
  intros Hf. pose proof (track_at_target _ frames Hf) as Ht. split.
  - rewrite (runCore_uniform frames Scene.coreMounted 1) by reflexivity.
    assert (H1 : targetProgressOf App.initialTreeState = 1)
      by (simpl; lra).
    rewrite H1 in Ht. rewrite Ht. reflexivity.
  - exact Ht.
Qed.

Lemma core_rests_at_initial_target_witness :
  runCore [(TREE_SHAPE, 1, 1); (TREE_SHAPE, 4, 3)] (Some Scene.coreMounted)
  = Some Scene.coreMounted.
Proof.
  apply core_rests_at_initial_target.
  repeat (apply List.Forall_cons; [reflexivity|]). apply List.Forall_nil.
Defined.

(** X12: the scene group only turns about [y], by [0.05] times the time
    that the frames add up to, in whatever way that time is cut into
    frames; an absent group stays absent. *)
Theorem group_rotation_accumulates (frames : list (TreeState * R * R))
    (g : THREE.Object3D) :
  runGroup frames (Some g)
  = Some {| THREE.position := THREE.position g;
            THREE.rotation :=
              add_y (THREE.rotation g) (0.05 * totalDelta frames);
            THREE.scale := THREE.scale g |}
  /\ runGroup frames None = None.
Proof.
  split.
  - revert g. induction frames as [|[[ts t] dt] frames IH]; intros g.
    + unfold runGroup, totalDelta, add_y. simpl.
      destruct g as [p [[rx ry] rz] sc]. simpl.
      do 4 f_equal. ring.
    + change (runGroup ((ts, t, dt) :: frames) (Some g))
        with (runGroup frames (Scene.useFrame dt (Some g))).
      unfold Scene.useFrame.
      destruct (THREE.rotation g) as [[rx ry] rz] eqn:Hr.
      rewrite IH, totalDelta_cons. cbn [THREE.position THREE.rotation
        THREE.scale]. unfold add_y. simpl.
      do 4 f_equal. ring.
  - induction frames as [|[[ts t] dt] frames IH]; [reflexivity|exact IH].
Qed.

(** ** The toggle *)

(** X13: pressing the toggle flips the target of every integrator between
    [1] and [0]; an even number of presses restores the state and an odd
    number is one press. *)
Theorem toggle_parity (n : nat) (s : TreeState) :
  targetProgressOf (App.toggleState s) = 1 - targetProgressOf s
  /\ Nat.iter n App.toggleState s
     = if Nat.even n then s else App.toggleState s.
Proof.
  split.
  - destruct s; simpl; lra.
  - induction n as [|n IH]; [reflexivity|].
    change (Nat.iter (S n) App.toggleState s)
      with (App.toggleState (Nat.iter n App.toggleState s)).
    rewrite IH, Nat.even_succ, <- Nat.negb_even.
    destruct (Nat.even n), s; reflexivity.
Qed.

(** ** What the generators produce *)

Lemma particle_cursor (draws : nat -> R) (i n : nat) :
  (Foliage.particle i draws n).2 = (7 + n)%nat.
Proof. reflexivity. Qed.

Lemma ornament_cursor (draws : nat -> R) (n : nat) :
  (Ornaments.ornament draws n).2 = (8 + n)%nat.
Proof. reflexivity. Qed.

Lemma Foliage_generateFrom_spec (draws : nat -> R) (k i0 : nat)
    (acc : list Foliage.Particle) (n : nat) :
  Foliage.generateFrom k i0 acc draws n
  = (acc ++ map (fun j => (Foliage.particle (i0 + j)%nat draws (n + 7 * j)%nat).1)
              (seq 0 k),
     (n + 7 * k)%nat).
Proof.
  revert i0 acc n. induction k as [|k IH]; intros i0 acc n.
  - simpl. unfold gret. rewrite app_nil_r. f_equal. lia.
  - cbn [Foliage.generateFrom]. unfold gbind at 1.
    pose proof (particle_cursor draws i0 n) as Hc.
    destruct (Foliage.particle i0 draws n) as [p n'] eqn:Hp.
    simpl in Hc. subst n'. rewrite IH.
    rewrite <- app_assoc. cbn [seq map app].
    replace (Foliage.particle (i0 + 0)%nat draws (n + 7 * 0)%nat)
      with (Foliage.particle i0 draws n)
      by (f_equal; lia).
    rewrite Hp. cbn [fst]. f_equal; [|lia]. do 2 f_equal.
    rewrite <- seq_shift, map_map.
    apply map_ext. intros j. do 2 f_equal; lia.
Qed.

Lemma Ornaments_generateFrom_spec (draws : nat -> R) (k : nat)
    (data : list PositionData) (n : nat) :
  Ornaments.generateFrom k data draws n
  = (data ++ map (fun j => (Ornaments.ornament draws (n + 8 * j)%nat).1)
               (seq 0 k),
     (n + 8 * k)%nat).
Proof.
  revert data n. induction k as [|k IH]; intros data n.
  - simpl. unfold gret. rewrite app_nil_r. f_equal. lia.
  - cbn [Ornaments.generateFrom]. unfold gbind at 1.
    pose proof (ornament_cursor draws n) as Hc.
    destruct (Ornaments.ornament draws n) as [d n'] eqn:Hd.
    simpl in Hc. subst n'. rewrite IH.
    rewrite <- app_assoc. cbn [seq map app].
    replace (Ornaments.ornament draws (n + 8 * 0)%nat)
      with (Ornaments.ornament draws n)
      by (f_equal; lia).
    rewrite Hd. cbn [fst]. f_equal; [|lia]. do 2 f_equal.
    rewrite <- seq_shift, map_map.
    apply map_ext. intros j. do 2 f_equal; lia.
Qed.

(** X14: the particle generator returns [PARTICLE_COUNT] particles and
    reads seven draws for each: particle [i] is computed from its index
    and the draws [7i .. 7i+6] after the start, and from nothing else. *)
Theorem Foliage_generate_by_index (draws : nat -> R) (n : nat) :
  Foliage.generate draws n
  = (map (fun i => (Foliage.particle i draws (n + 7 * i)%nat).1)
       (seq 0 TREE_CONFIG.PARTICLE_COUNT),
     (n + 7 * TREE_CONFIG.PARTICLE_COUNT)%nat)
  /\ length (Foliage.generate draws n).1 = TREE_CONFIG.PARTICLE_COUNT.
Proof.
  unfold Foliage.generate. rewrite Foliage_generateFrom_spec.
  split; [reflexivity|].
  cbn [fst app]. rewrite length_map, length_seq. reflexivity.
Qed.

(** X15: [generateData count] returns [count] ornaments and reads eight
    draws for each, ornament [i] from the draws [8i .. 8i+7] after the
    start; mounting the component reads [8·(180 + 180 + 90) = 3600] draws,
    the spheres first, then the boxes, then the bells. *)
Theorem generateData_by_index (draws : nat -> R) (count n : nat) :
  Ornaments.generateData count draws n
  = (map (fun i => (Ornaments.ornament draws (n + 8 * i)%nat).1) (seq 0 count),
     (n + 8 * count)%nat)
  /\ (let s0 := (Ornaments.mounted draws n).1 in
      Ornaments.goldSphereData s0
      = (Ornaments.generateData 180 draws n).1
      /\ Ornaments.redBoxData s0
         = (Ornaments.generateData 180 draws (n + 1440)%nat).1
      /\ Ornaments.bellData s0
         = (Ornaments.generateData 90 draws (n + 2880)%nat).1)
  /\ (Ornaments.mounted draws n).2 = (n + 3600)%nat.
Proof.
  assert (Hgen : forall c m,
             Ornaments.generateData c draws m
             = (map (fun i => (Ornaments.ornament draws (m + 8 * i)%nat).1)
                  (seq 0 c),
                (m + 8 * c)%nat)).
  { intros c m. unfold Ornaments.generateData.
    rewrite Ornaments_generateFrom_spec. reflexivity. }
  split; [apply Hgen|].
  unfold Ornaments.mounted, gbind.
  rewrite sphere_box_count, bell_count.
  rewrite (Hgen 180%nat n).
  replace (n + 8 * 180)%nat with (n + 1440)%nat by lia.
  rewrite (Hgen 180%nat (n + 1440)%nat).
  replace (n + 1440 + 8 * 180)%nat with (n + 2880)%nat by lia.
  rewrite (Hgen 90%nat (n + 2880)%nat).
  cbn [fst snd gret Ornaments.goldSphereData Ornaments.redBoxData
       Ornaments.bellData].
  repeat split. lia.
Qed.

Lemma Ornaments_treePoint_axisDist (q1 q2 a : R) :
  0 <= q1 < 1 -> 0 <= q2 < 1 ->
  let y := (Ornaments.treePoint q1 q2 a).1.2 in
  let cone := TREE_CONFIG.RADIUS_BASE * (1 - y / TREE_CONFIG.HEIGHT) in
  y = q1 * (TREE_CONFIG.HEIGHT - 1.5) + 0.5
  /\ axisDist (Ornaments.treePoint q1 q2 a) = cone + 0.1 + q2 * 0.2.
Proof.
  intros H1 H2. unfold Ornaments.treePoint, axisDist. cbn [fst snd].
  split; [reflexivity|].
  set (h := q1 * (TREE_CONFIG.HEIGHT - 1.5) + 0.5).
  set (r := TREE_CONFIG.RADIUS_BASE * (1 - h / TREE_CONFIG.HEIGHT)
            + 0.1 + q2 * 0.2).
  set (angle := a * PI * 2).
  pose proof (sin2_cos2 angle) as Ha. unfold Rsqr in Ha.
  replace (cos angle * r * (cos angle * r) + sin angle * r * (sin angle * r))
    with (r * r * (sin angle * sin angle + cos angle * cos angle)) by ring.
  rewrite Ha, Rmult_1_r. apply sqrt_square.
  unfold r, h, TREE_CONFIG.RADIUS_BASE, TREE_CONFIG.HEIGHT. lra.
Qed.

Lemma ornament_surface (draws : nat -> R) (n : nat) :
  unit_draws draws -> ornament_on_surface (Ornaments.ornament draws n).1.
Proof.
  intros Hu. rewrite ornament_sample. unfold ornament_on_surface.
  cbn [treePosition].
  pose proof (Hu n) as H1. pose proof (Hu (1 + n)%nat) as H2.
  destruct (Ornaments_treePoint_axisDist (draws n) (draws (1 + n)%nat)
              (draws (2 + n)%nat) H1 H2) as [Hy Hd].
  rewrite Hd, Hy. unfold TREE_CONFIG.HEIGHT. repeat split; lra.
Qed.

Lemma ornament_attrs (draws : nat -> R) (n : nat) :
  unit_draws draws -> ornament_attributes (Ornaments.ornament draws n).1.
Proof.
  intros Hu. rewrite ornament_sample. unfold ornament_attributes.
  cbn [Types.scale Types.rotation type fst snd].
  pose proof (Hu (5 + n)%nat) as H5. pose proof (Hu (6 + n)%nat) as H6.
  pose proof (Hu (7 + n)%nat) as H7. pose proof PI_RGT_0 as Hpi.
  repeat split; try lra; nra.
Qed.

(** X16: every ornament that [generateData] returns is formed on the
    outside of the cone: at a height in [[0.5, H − 1)], away from the
    very bottom and the very top, and farther from the axis than the cone
    surface at its height by at least [0.1] and less than [0.3]. *)
Theorem ornaments_formed_outside_cone (draws : nat -> R) (count n : nat) :
  unit_draws draws ->
  Forall ornament_on_surface (Ornaments.generateData count draws n).1.
Proof.
  intros Hu. apply Ornaments_generateData_Forall.
  intros m. apply ornament_surface, Hu.
Qed.

Lemma ornaments_formed_outside_cone_witness :
  Forall ornament_on_surface (Ornaments.generateData 3 draws_half 0%nat).1.
Proof.
  apply ornaments_formed_outside_cone. intros n. unfold draws_half. lra.
Defined.

(** X17: every ornament that [generateData] returns has a base scale in
    [[0.2, 0.5)], a base rotation about [x] and [y] by angles in [[0, π)]
    and none about [z], and the placeholder type [box], whichever pool it
    is generated for. *)
Theorem ornaments_attributes (draws : nat -> R) (count n : nat) :
  unit_draws draws ->
  Forall ornament_attributes (Ornaments.generateData count draws n).1.
Proof.
  intros Hu. apply Ornaments_generateData_Forall.
  intros m. apply ornament_attrs, Hu.
Qed.

Lemma ornaments_attributes_witness :
  Forall ornament_attributes (Ornaments.generateData 3 draws_half 0%nat).1.
Proof.
  apply ornaments_attributes. intros n. unfold draws_half. lra.
Defined.

(** X18: every generated particle has a seed in [[0,1)]; hence when the
    global progress is [1] the shader blends every generated particle to
    exactly its formed endpoint, and when it is [0] to exactly its
    scattered endpoint, where the wind does not move it. *)
Theorem generated_particles_reach_endpoints (draws : nat -> R) (n : nat)
    (uTime : R) :
  unit_draws draws ->
  Forall (fun p =>
            0 <= Foliage.aRandom p < 1
            /\ Foliage.mixPos 1 (Foliage.aTreePos p) (Foliage.aScatterPos p)
                 (Foliage.aRandom p) = Foliage.aTreePos p
            /\ Foliage.windPos uTime 0 (Foliage.aTreePos p)
                 (Foliage.aScatterPos p) (Foliage.aRandom p)
               = Foliage.aScatterPos p)
         (Foliage.generate draws n).1.
Proof.
  intros Hu. unfold Foliage.generate. apply Foliage_generateFrom_Forall.
  - intros i m. rewrite particle_sample.
    cbn [Foliage.aRandom Foliage.aTreePos Foliage.aScatterPos].
    pose proof (Hu (6 + m)%nat) as Hr.
    split; [exact Hr|split].
    + apply mixPos_formed. lra.
    + unfold Foliage.windPos. rewrite mixPos_scattered by lra.
      unfold Foliage.easedProgress.
      rewrite localProgress_scattered by lra.
      rewrite easeInOutCubic_spec, ease_spec_0.
      destruct (Foliage.scatterPoint _ _ _) as [[sx sy] sz].
      f_equal; [f_equal|]; ring.
  - apply Forall_nil. exact I.
Qed.

Lemma generated_particles_reach_endpoints_witness :
  Forall (fun p =>
            0 <= Foliage.aRandom p < 1
            /\ Foliage.mixPos 1 (Foliage.aTreePos p) (Foliage.aScatterPos p)
                 (Foliage.aRandom p) = Foliage.aTreePos p
            /\ Foliage.windPos 2 0 (Foliage.aTreePos p)
                 (Foliage.aScatterPos p) (Foliage.aRandom p)
               = Foliage.aScatterPos p)
         (Foliage.generate draws_half 0%nat).1.
Proof.
  apply generated_particles_reach_endpoints. intros n.
  unfold draws_half. lra.
Defined.

(** ** Blending between the endpoints *)

Lemma ease_spec_unit (x : R) : 0 <= x <= 1 -> 0 <= ease_spec x <= 1.
Proof.
  intros [H0 H1].
  pose proof (ease_spec_mono 0 x H0) as Hlo.
  pose proof (ease_spec_mono x 1 H1) as Hhi.
  rewrite ease_spec_0 in Hlo. rewrite ease_spec_1 in Hhi. lra.
Qed.

Lemma lerp_between (s t e : R) :
  0 <= e <= 1 -> between s t (THREE.MathUtils.lerp s t e).
Proof.
  intros He. unfold between, THREE.MathUtils.lerp, Rmin, Rmax.
  destruct (Rle_dec s t); split; nra.
Qed.

Lemma mix_between (s t e : R) :
  0 <= e <= 1 -> between s t (GLSL.mix s t e).
Proof.
  intros He. unfold between, GLSL.mix, Rmin, Rmax.
  destruct (Rle_dec s t); split; nra.
Qed.

(** X19: the eased value of the host is in [[0,1]] exactly when the
    progress is: a progress above [1] is eased above [1] and a progress
    below [0] below [0], so an instance is then placed beyond its
    endpoint. *)
Theorem eased_unit_iff (p : R) :
  (0 <= Ornaments.eased p <= 1 <-> 0 <= p <= 1)
  /\ (1 < p <-> 1 < Ornaments.eased p)
  /\ (p < 0 <-> Ornaments.eased p < 0).
Proof.
  assert (Hhi : 1 < p -> 1 < Ornaments.eased p).
  { intros Hp. unfold Ornaments.eased.
    destruct (Rlt_dec p 0.5); [lra|]. rewrite pow3.
    pose proof (cube_le (- 2 * p + 2) 0 ltac:(lra)) as Hc.
    assert (0 < (2 * p - 2) * (2 * p - 2) * (2 * p - 2)).
    { repeat apply Rmult_lt_0_compat; lra. }
    nra. }
  assert (Hlo : p < 0 -> Ornaments.eased p < 0).
  { intros Hp. unfold Ornaments.eased.
    destruct (Rlt_dec p 0.5); [|lra].
    assert (0 < (- p) * (- p) * (- p)).
    { repeat apply Rmult_lt_0_compat; lra. }
    nra. }
  assert (Hin : 0 <= p <= 1 -> 0 <= Ornaments.eased p <= 1).
  { intros Hp. rewrite eased_spec. apply ease_spec_unit, Hp. }
  split; [|split]; split; intros H; try auto.
  - destruct (Rlt_dec p 0) as [Hn|Hn]; [apply Hlo in Hn; lra|].
    destruct (Rlt_dec 1 p) as [Hg|Hg]; [apply Hhi in Hg; lra|]. lra.
  - destruct (Rlt_dec 1 p) as [Hg|Hg]; [exact Hg|].
    destruct (Rlt_dec p 0) as [Hn|Hn]; [apply Hlo in Hn; lra|].
    assert (0 <= p <= 1) as Hp by lra. apply Hin in Hp. lra.
  - destruct (Rlt_dec p 0) as [Hn|Hn]; [exact Hn|].
    destruct (Rlt_dec 1 p) as [Hg|Hg]; [apply Hhi in Hg; lra|].
    assert (0 <= p <= 1) as Hp by lra. apply Hin in Hp. lra.
Qed.

(** X20: when the progress of a pool after its integration step is in
    [[0,1]], the position written for an element lies, coordinate by
    coordinate, between its scattered and its formed endpoint. *)
Theorem host_blend_within_endpoints (mesh : THREE.InstancedMesh)
    (data : list PositionData) (i : nat) (d : PositionData)
    (dt t target sm : R) (wb : bool) :
  data !! i = Some d ->
  (i < length (THREE.instanceMatrix mesh))%nat ->
  0 <= Ornaments.nextProgress (THREE.userData_progress mesh) dt target <= 1 ->
  exists pos,
    THREE.matrixPosition
      <$> slot (Ornaments.animateMesh (Some mesh) data dt t target sm wb) i
    = Some pos
    /\ in_box (scatterPosition d) (treePosition d) pos.
Proof.
  intros Hd Hi Hp. rewrite (animateMesh_slot _ _ _ _ _ _ _ _ _ Hd Hi).
  eexists. split; [reflexivity|].
  cbn [THREE.matrixPosition THREE.updateMatrix]. rewrite dummyAt_position.
  assert (He : 0 <= Ornaments.eased
                      (Ornaments.nextProgress
                         (THREE.userData_progress mesh) dt target) <= 1).
  { rewrite eased_spec. apply ease_spec_unit, Hp. }
  unfold in_box. cbn [fst snd].
  repeat split; apply lerp_between, He.
Qed.

Lemma host_blend_within_endpoints_witness :
  exists pos,
    THREE.matrixPosition
      <$> slot (Ornaments.animateMesh (Some (meshAt 3 (Some 0.3))) pool3
                  0.25 7 1 1.3 true) 2
    = Some pos
    /\ in_box (0, 0, 0) (3, 3, 3) pos.
Proof.
  apply (host_blend_within_endpoints (meshAt 3 (Some 0.3)) pool3 2
           (element (3, 3, 3)) 0.25 7 1 1.3 true).
  - reflexivity.
  - simpl. lia.
  - unfold Ornaments.nextProgress, ANIMATION_CONFIG.TRANSITION_SPEED.
    simpl. lra.
Defined.

Lemma easedProgress_unit (uProgress r : R) :
  0 <= Foliage.easedProgress uProgress r <= 1.
Proof.
  unfold Foliage.easedProgress. rewrite easeInOutCubic_spec.
  apply ease_spec_unit. unfold Foliage.localProgress.
  pose proof (clamp_range (uProgress * 1.2 - r * 0.2) 0.0 1.0 ltac:(lra)).
  lra.
Qed.

(** X21: in the shader the eased local progress is in [[0,1]] for every
    global progress and seed, because the local progress is clamped; the
    blended position of a particle therefore always lies, coordinate by
    coordinate, between its two endpoints, also when the global progress
    has left [[0,1]]. *)
Theorem shader_blend_within_endpoints (uProgress : R) (tree scat : Vec3)
    (r : R) :
  0 <= Foliage.easedProgress uProgress r <= 1
  /\ in_box scat tree (Foliage.mixPos uProgress tree scat r).
Proof.
  pose proof (easedProgress_unit uProgress r) as He.
  split; [exact He|].
  unfold Foliage.mixPos.
  destruct tree as [[tx ty] tz], scat as [[sx sy] sz].
  unfold in_box, GLSL.mix3. cbn [fst snd].
  repeat split; apply mix_between, He.
Qed.

(** X22: the local progress of a particle does not decrease when the
    global progress increases; the particle of seed [r] stays at its
    scattered endpoint exactly while the global progress is at most
    [r/6] and is fully formed exactly from [(5 + r)/6] on. *)
Theorem localProgress_thresholds (g1 g2 r : R) :
  g1 <= g2 ->
  Foliage.localProgress g1 r <= Foliage.localProgress g2 r
  /\ Foliage.easedProgress g1 r <= Foliage.easedProgress g2 r
  /\ (Foliage.localProgress g1 r = 0 <-> g1 <= r / 6)
  /\ (Foliage.localProgress g1 r = 1 <-> (5 + r) / 6 <= g1).
Proof.
  intros Hg.
  assert (Hm : Foliage.localProgress g1 r <= Foliage.localProgress g2 r).
  { unfold Foliage.localProgress. apply clamp_mono. lra. }
  split; [exact Hm|split; [|split]].
  - unfold Foliage.easedProgress. rewrite !easeInOutCubic_spec.
    apply ease_spec_mono, Hm.
  - unfold Foliage.localProgress, GLSL.clamp, Rmin, Rmax.
    destruct (Rle_dec (g1 * 1.2 - r * 0.2) 0.0), (Rle_dec _ 1.0);
      split; intros; lra.
  - unfold Foliage.localProgress, GLSL.clamp, Rmin, Rmax.
    destruct (Rle_dec (g1 * 1.2 - r * 0.2) 0.0), (Rle_dec _ 1.0);
      split; intros; lra.
Qed.

Lemma localProgress_thresholds_witness :
  Foliage.localProgress 0.25 0.6 <= Foliage.localProgress 0.75 0.6
  /\ Foliage.easedProgress 0.25 0.6 <= Foliage.easedProgress 0.75 0.6.
Proof.
  destruct (localProgress_thresholds 0.25 0.75 0.6) as (H1 & H2 & _).
  - lra.
  - split; assumption.
Defined.

(** X23: the wind moves a particle by the same amount along [x] and [z]
    and not at all along [y]; the amount is at most [0.08] times the
    eased local progress, hence at most [0.08], and none for a particle
    that has not started to form. *)
Theorem wind_displacement_bounded (uTime uProgress : R) (tree scat : Vec3)
    (r : R) :
  let pos := Foliage.mixPos uProgress tree scat r in
  exists wind,
    Foliage.windPos uTime uProgress tree scat r
    = (pos.1.1 + wind, pos.1.2, pos.2 + wind)
    /\ Rabs wind <= 0.08 * Foliage.easedProgress uProgress r
    /\ Rabs wind <= 0.08.
Proof.
  intros pos. unfold Foliage.windPos. fold pos.
  destruct pos as [[px py] pz]. cbn [fst snd].
  pose proof (easedProgress_unit uProgress r) as He.
  eexists. split; [reflexivity|].
  pose proof (SIN_bound (uTime * 2.0 + py * 2.0 + px)) as Hs.
  assert (Hw : Rabs (sin (uTime * 2.0 + py * 2.0 + px) * 0.08
                     * Foliage.easedProgress uProgress r)
               <= 0.08 * Foliage.easedProgress uProgress r).
  { apply Rabs_le. split; nra. }
  split; [exact Hw|]. lra.
Qed.

(** ** Size, transparency and colour of a particle *)

(** X24: for a seed in [[0,1)] and a vertex in front of the camera
    ([mvPosition.z < 0]) the point size is between [50] and [140] divided
    by the depth; it does not decrease with the seed and does not
    increase with the depth. *)
Theorem pointSize_bounds (r1 r2 z1 z2 : R) :
  0 <= r1 -> r1 <= r2 -> r2 < 1 -> z2 <= z1 -> z1 < 0 ->
  50 / - z1 <= Foliage.pointSize r1 z1 < 140 / - z1
  /\ Foliage.pointSize r1 z1 <= Foliage.pointSize r2 z1
  /\ Foliage.pointSize r1 z2 <= Foliage.pointSize r1 z1.
Proof.
  intros H0 H12 H1 Hz Hz0. unfold Foliage.pointSize, Rdiv.
  assert (Hi1 : 0 < / - z1) by (apply Rinv_0_lt_compat; lra).
  assert (Hi2 : 0 < / - z2) by (apply Rinv_0_lt_compat; lra).
  assert (Hi : / - z2 <= / - z1) by (apply Rinv_le_contravar; lra).
  replace (1.0 * / - z1) with (/ - z1) by lra.
  replace (1.0 * / - z2) with (/ - z2) by lra.
  repeat split; nra.
Qed.

Lemma pointSize_bounds_witness :
  50 / - -10 <= Foliage.pointSize 0.2 (-10) < 140 / - -10.
Proof.
  apply (pointSize_bounds 0.2 0.4 (-10) (-20)); lra.
Defined.

Lemma sqrt_quarter : sqrt 0.25 = 0.5.
Proof.
  replace 0.25 with (0.5 * 0.5) by lra. apply sqrt_square. lra.
Qed.

Lemma half_lt_sqrt (s : R) : 0 <= s -> (0.5 < sqrt s <-> 0.25 < s).
Proof.
  intros Hs. rewrite <- sqrt_quarter. split; intros H.
  - apply sqrt_lt_0 in H; lra.
  - apply sqrt_lt_1; lra.
Qed.

(** X25: the fragment shader drops exactly the fragments that are farther
    than [0.5] from the centre of the point, whatever the colour and the
    transparency; a fragment that is kept has the colour of the vertex and
    the transparency of the vertex times a glow in [[0,1]], which is [1]
    at the centre; the twinkle that the vertex shader passes is in
    [[0.6, 1]]. *)
Theorem fragment_disc (cx cy : R) (color : Vec3) (alpha uTime r : R) :
  let d2 := (cx - 0.5) * (cx - 0.5) + (cy - 0.5) * (cy - 0.5) in
  (Foliage.fragment (cx, cy) color alpha = None <-> 0.25 < d2)
  /\ (forall c a,
        Foliage.fragment (cx, cy) color alpha = Some (c, a) ->
        c = color
        /\ exists glow, a = alpha * glow /\ 0 <= glow <= 1
                        /\ glow = (1 - 2 * sqrt d2) ^ 2)
  /\ Foliage.fragment (0.5, 0.5) color alpha = Some (color, alpha)
  /\ 0.6 <= Foliage.vAlpha uTime r <= 1.
Proof.
  intros d2.
  assert (Hd : 0 <= d2).
  { unfold d2. apply Rplus_le_le_0_compat;
      [apply (Rle_0_sqr (cx - 0.5)) | apply (Rle_0_sqr (cy - 0.5))]. }
  pose proof (half_lt_sqrt d2 Hd) as Hh.
  pose proof (sqrt_pos d2) as Hsp.
  split; [|split; [|split]].
  - unfold Foliage.fragment. fold d2.
    destruct (Rlt_dec 0.5 (sqrt d2)) as [Hl|Hl].
    + split; [intros _; apply Hh, Hl | reflexivity].
    + split; [discriminate | intros H; apply Hh in H; contradiction].
  - intros c a. unfold Foliage.fragment. fold d2.
    destruct (Rlt_dec 0.5 (sqrt d2)) as [Hl|Hl]; [discriminate|].
    intros H. injection H as <- <-. split; [reflexivity|].
    exists ((1 - 2 * sqrt d2) ^ 2).
    split; [f_equal; simpl; lra|].
    split; [|reflexivity]. simpl. nra.
  - unfold Foliage.fragment.
    replace ((0.5 - 0.5) * (0.5 - 0.5) + (0.5 - 0.5) * (0.5 - 0.5))
      with 0 by lra.
    rewrite sqrt_0. destruct (Rlt_dec 0.5 0); [lra|].
    do 2 f_equal. simpl. lra.
  - unfold Foliage.vAlpha.
    pose proof (SIN_bound (uTime * 3.0 + r * 10.0)). lra.
Qed.

Lemma fragment_disc_witness :
  Foliage.fragment (0, 0) (0.1, 0.6, 0.3) 0.8 = None.
Proof.
  apply (fragment_disc 0 0 (0.1, 0.6, 0.3) 0.8 0 0). lra.
Defined.

(** X26: for a particle at a height between [−1] and [9], which includes
    every formed height, a seed of at most [0.85] gives a colour between
    the deep and the light green in every channel, and a seed above
    [0.85] gives the frosted colour, which is brighter than every
    unfrosted colour in every channel. *)
Theorem shade_ranges (y r : R) :
  -1 <= y <= 9 ->
  let '(cr, cg, cb) := Foliage.shade y r in
  (r <= 0.85 ->
   0 <= cr <= 0.1 /\ 0.25 <= cg <= 0.6 /\ 0.1 <= cb <= 0.3)
  /\ (0.85 < r ->
      0.63 <= cr <= 0.66 /\ 0.705 <= cg <= 0.81 /\ 0.52 <= cb <= 0.58).
Proof.
  intros Hy. unfold Foliage.shade, Foliage.colorDeep, Foliage.colorLight,
    GLSL.mix3, GLSL.mix, Foliage.heightFactor.
  destruct (Rlt_dec 0.85 r) as [Hr|Hr]; split; intros H; try lra;
    repeat split; lra.
Qed.

Lemma shade_ranges_witness :
  let '(cr, cg, cb) := Foliage.shade 4.5 0.9 in
  0.63 <= cr <= 0.66 /\ 0.705 <= cg <= 0.81 /\ 0.52 <= cb <= 0.58.
Proof.
  pose proof (shade_ranges 4.5 0.9 ltac:(lra)) as H.
  destruct (Foliage.shade 4.5 0.9) as [[cr cg] cb].
  apply H. lra.
Defined.

(** ** Rotation and scale of an instance *)

(** Equality of matrices and vectors, component by component. *)
Ltac components :=
  repeat match goal with
         | |- THREE.compose _ _ _ = THREE.compose _ _ _ => f_equal
         | |- (_, _) = (_, _) => f_equal
         end.

Lemma dummyAt_rest (t sm : R) (d : PositionData) (i : nat) :
  THREE.updateMatrix (Ornaments.dummyAt 1 t sm false d i)
  = THREE.compose (treePosition d) (Types.rotation d)
      (THREE.setScalar (Types.scale d * sm)).
Proof.
  unfold Ornaments.dummyAt, THREE.updateMatrix, THREE.MathUtils.lerp.
  destruct (scatterPosition d) as [[sx sy] sz],
           (treePosition d) as [[tx ty] tz],
           (Types.rotation d) as [[r0 r1] r2].
  cbn [THREE.position THREE.rotation THREE.scale].
  components; lra.
Qed.

Lemma dummyAt_hang (t sm : R) (d : PositionData) (i : nat) :
  THREE.updateMatrix (Ornaments.dummyAt 1 t sm true d i)
  = THREE.compose (treePosition d)
      (sin (t * 2 + INR i) * 0.1, (Types.rotation d).1.2,
       sin (t * 2 + INR i) * 0.1)
      (THREE.setScalar (Types.scale d * sm)).
Proof.
  unfold Ornaments.dummyAt, THREE.updateMatrix, THREE.MathUtils.lerp.
  destruct (scatterPosition d) as [[sx sy] sz],
           (treePosition d) as [[tx ty] tz],
           (Types.rotation d) as [[r0 r1] r2].
  cbn [THREE.position THREE.rotation THREE.scale fst snd].
  components; lra.
Qed.

(** X27: when the progress of a pool is [1], a sphere or box instance is
    written at its formed endpoint with exactly its base rotation and its
    base scale times the multiplier of the pool, whatever the elapsed
    time: it has stopped spinning.  A bell is written at its formed
    endpoint upright but for a sway of at most [0.1] about [x] and [z],
    [0.1·sin(2t + i)], with its base rotation about [y]. *)
Theorem formed_instances_rest (mesh : THREE.InstancedMesh)
    (data : list PositionData) (i : nat) (d : PositionData)
    (dt t target sm : R) :
  data !! i = Some d ->
  (i < length (THREE.instanceMatrix mesh))%nat ->
  Ornaments.nextProgress (THREE.userData_progress mesh) dt target = 1 ->
  slot (Ornaments.animateMesh (Some mesh) data dt t target sm false) i
  = Some (THREE.compose (treePosition d) (Types.rotation d)
            (THREE.setScalar (Types.scale d * sm)))
  /\ exists sway,
       slot (Ornaments.animateMesh (Some mesh) data dt t target sm true) i
       = Some (THREE.compose (treePosition d)
                 (sway, (Types.rotation d).1.2, sway)
                 (THREE.setScalar (Types.scale d * sm)))
       /\ sway = 0.1 * sin (2 * t + INR i)
       /\ Rabs sway <= 0.1.
Proof.
  intros Hd Hi Hp. split.
  - rewrite (animateMesh_slot _ _ _ _ _ _ _ _ _ Hd Hi), Hp, eased_1.
    f_equal. apply dummyAt_rest.
  - exists (sin (t * 2 + INR i) * 0.1). split; [|split].
    + rewrite (animateMesh_slot _ _ _ _ _ _ _ _ _ Hd Hi), Hp, eased_1.
      f_equal. apply dummyAt_hang.
    + replace (t * 2 + INR i) with (2 * t + INR i) by ring. ring.
    + pose proof (SIN_bound (t * 2 + INR i)). apply Rabs_le. lra.
Qed.

Lemma formed_instances_rest_witness :
  slot (Ornaments.animateMesh (Some (meshAt 3 (Some 1))) pool3 0.016 7 1
          1.3 false) 2
  = Some (THREE.compose (3, 3, 3) (0, 0, 0) (THREE.setScalar (1 * 1.3))).
Proof.
  apply (formed_instances_rest (meshAt 3 (Some 1)) pool3 2
           (element (3, 3, 3)) 0.016 7 1 1.3).
  - reflexivity.
  - simpl. lia.
  - unfold Ornaments.nextProgress, ANIMATION_CONFIG.TRANSITION_SPEED.
    simpl. lra.
Defined.

(** ** The instances after a run of frames *)

Lemma dummyAt_scale (e t sm : R) (wb : bool) (d : PositionData) (i : nat) :
  THREE.scale (Ornaments.dummyAt e t sm wb d i)
  = THREE.setScalar (Types.scale d * sm).
Proof.
  unfold Ornaments.dummyAt.
  destruct (scatterPosition d) as [[sx sy] sz],
           (treePosition d) as [[tx ty] tz],
           (Types.rotation d) as [[r0 r1] r2].
  reflexivity.
Qed.

Lemma animateMesh_written_instance (ref : option THREE.InstancedMesh)
    (data : list PositionData) (dt t : R) (ts : TreeState) (sm : R)
    (wb : bool) (i : nat) :
  (fun m => length (THREE.instanceMatrix m)) <$> ref = Some 450%nat ->
  0 <= poolProgress ref <= 1 ->
  short_frame dt -> 0 < sm ->
  Forall ornament_attributes data ->
  (i < length data)%nat -> (i < 450)%nat ->
  written_instance
    (Ornaments.animateMesh ref data dt t (targetProgressOf ts) sm wb)
    data i sm.
Proof.
  intros Hlen Hp Hdt Hsm Hattr Hi Hi'.
  destruct ref as [mesh|]; [|discriminate].
  simpl in Hlen. injection Hlen as Hlen.
  destruct (lookup_lt_is_Some_2 data i Hi) as [d Hd].
  assert (Hslot : (i < length (THREE.instanceMatrix mesh))%nat) by lia.
  assert (Hnext : 0 <= Ornaments.nextProgress
                         (THREE.userData_progress mesh) dt
                         (targetProgressOf ts) <= 1).
  { apply (step_unit (poolProgress (Some mesh)) dt ts Hdt Hp). }
  exists d. eexists.
  split; [exact Hd|]. split; [apply (animateMesh_slot _ _ _ _ _ _ _ _ _ Hd Hslot)|].
  cbn [THREE.matrixPosition THREE.matrixScale THREE.updateMatrix].
  split; [|split].
  - rewrite dummyAt_position. unfold in_box. cbn [fst snd].
    assert (He : 0 <= Ornaments.eased
                        (Ornaments.nextProgress
                           (THREE.userData_progress mesh) dt
                           (targetProgressOf ts)) <= 1).
    { rewrite eased_spec. apply ease_spec_unit, Hnext. }
    repeat split; apply lerp_between, He.
  - apply dummyAt_scale.
  - pose proof (proj1 (Forall_lookup _ data) Hattr i d Hd) as (Hs & _).
    nra.
Qed.

(** X28: from the mounted component with draws in [[0,1)], after one or
    more frames that all have [0 ≤ Δt ≤ 1/k], every slot below the length
    of the data of its pool holds the matrix of its element: a position
    between the two endpoints and a uniform scale that is the base scale
    times [1] for spheres and bells (in [[0.2, 0.5)]) and times [1.3] for
    boxes (in [[0.26, 0.65)]). *)
Theorem instances_after_run (draws : nat -> R) (n : nat)
    (frames : list (TreeState * R * R)) (f : TreeState * R * R)
    (i j : nat) :
  unit_draws draws -> short_frames (frames ++ [f]) ->
  (i < 180)%nat -> (j < 90)%nat ->
  let s := run (frames ++ [f]) (Ornaments.mounted draws n).1 in
  written_instance (Ornaments.goldSpheresRef s) (Ornaments.goldSphereData s)
    i 1.0
  /\ written_instance (Ornaments.redBoxesRef s) (Ornaments.redBoxData s)
       i 1.3
  /\ written_instance (Ornaments.bellsRef s) (Ornaments.bellData s) j 1.0.
Proof.
  intros Hu Hs Hi Hj s. destruct f as [[ts t] dt].
  apply Forall_app in Hs as [Hs Hf].
  apply (proj1 (Forall_singleton _ _)) in Hf. simpl in Hf.
  set (s0 := (Ornaments.mounted draws n).1).
  set (s1 := run frames s0).
  assert (Hrun : s = Ornaments.useFrame ts t dt s1).
  { unfold s, s1, run. rewrite fold_left_app. reflexivity. }
  destruct (mounted_state draws n) as (Mg & Mr & Mb & Lg & Lr & Lb).
  destruct (mounted_data draws n) as (n1 & n2 & Dg & Dr & Db).
  destruct (run_data frames s0) as (Rg & Rr & Rb).
  destruct (run_slots frames s0) as (Sg & Sr & Sb).
  destruct (run_mounted_progress draws n frames) as (Pg & Pr & Pb).
  fold s0 in Mg, Mr, Mb, Lg, Lr, Lb, Dg, Dr, Db, Pg, Pr, Pb.
  fold s1 in Rg, Rr, Rb, Sg, Sr, Sb, Pg, Pr, Pb.
  pose proof (track_unit frames 0 Hs ltac:(lra)) as Ht.
  assert (Hattr : forall c m,
             Forall ornament_attributes
               (Ornaments.generateData c draws m).1).
  { intros c m. apply Ornaments_generateData_Forall.
    intros k. apply ornament_attrs, Hu. }
  assert (Hslots : (fun m => length (THREE.instanceMatrix m))
                     <$> Some (THREE.newInstancedMesh 450) = Some 450%nat).
  { unfold THREE.newInstancedMesh.
    cbn [fmap option_fmap option_map THREE.instanceMatrix].
    rewrite length_replicate. reflexivity. }
  rewrite Mg in Sg. rewrite Mr in Sr. rewrite Mb in Sb.
  rewrite Hslots in Sg, Sr, Sb.
  rewrite Hrun. unfold Ornaments.useFrame.
  cbn [Ornaments.goldSpheresRef Ornaments.redBoxesRef Ornaments.bellsRef
       Ornaments.goldSphereData Ornaments.redBoxData Ornaments.bellData].
  split; [|split].
  - apply animateMesh_written_instance;
      [exact Sg | rewrite Pg; exact Ht | exact Hf | lra
      | rewrite Rg, Dg; apply Hattr | rewrite Rg, Lg; exact Hi | lia].
  - apply animateMesh_written_instance;
      [exact Sr | rewrite Pr; exact Ht | exact Hf | lra
      | rewrite Rr, Dr; apply Hattr | rewrite Rr, Lr; exact Hi | lia].
  - apply animateMesh_written_instance;
      [exact Sb | rewrite Pb; exact Ht | exact Hf | lra
      | rewrite Rb, Db; apply Hattr | rewrite Rb, Lb; exact Hj | lia].
Qed.

Lemma instances_after_run_witness :
  written_instance
    (Ornaments.redBoxesRef
       (run ([(TREE_SHAPE, 0.1, 0.1)] ++ [(SCATTERED, 0.6, 0.5)])
          (Ornaments.mounted draws_half 0%nat).1))
    (Ornaments.redBoxData
       (run ([(TREE_SHAPE, 0.1, 0.1)] ++ [(SCATTERED, 0.6, 0.5)])
          (Ornaments.mounted draws_half 0%nat).1))
    179 1.3.
Proof.
  destruct (instances_after_run draws_half 0%nat [(TREE_SHAPE, 0.1, 0.1)]
              (SCATTERED, 0.6, 0.5) 179 89) as (_ & H & _).
  - intros n. unfold draws_half. lra.
  - apply short_frames_intro.
    repeat (apply List.Forall_cons; [simpl; lra|]). apply List.Forall_nil.
  - lia.
  - lia.
  - exact H.
Defined.

(** ** A frame of zero duration on the mounted component *)

Lemma mounted_star (draws : nat -> R) (n : nat) :
  Ornaments.starRef (Ornaments.mounted draws n).1
  = Some {| THREE.position := (0, TREE_CONFIG.HEIGHT, 0);
            THREE.rotation := (0, 0, 0);
            THREE.scale := (1, 1, 1) |}.
Proof.
  unfold Ornaments.mounted, gbind.
  destruct (Ornaments.generateData _ draws n) as [gs n1].
  destruct (Ornaments.generateData _ draws n1) as [rb n2].
  destruct (Ornaments.generateData _ draws n2) as [bl n3].
  reflexivity.
Qed.

(** C6 (as stated, for a frame update with [Δt = 0] in any state) fails:
    on the component as mounted, where the apex element is at height
    [H = 9] with scale [1], a first frame update with [Δt = 0] at elapsed
    time [0] moves the apex element to height [14] and sets its scale to
    [0], so the state is not left unchanged. *)
Lemma zero_delta_frame_moves_mounted_star :
  Ornaments.starRef (Ornaments.mounted draws_zero 0%nat).1
  = Some {| THREE.position := (0, 9, 0);
            THREE.rotation := (0, 0, 0);
            THREE.scale := (1, 1, 1) |}
  /\ Ornaments.starRef
       (Ornaments.useFrame TREE_SHAPE 0 0
          (Ornaments.mounted draws_zero 0%nat).1)
     = Some {| THREE.position := (0, 14, 0);
               THREE.rotation := (0, 0, 0);
               THREE.scale := (0, 0, 0) |}
  /\ Ornaments.useFrame TREE_SHAPE 0 0 (Ornaments.mounted draws_zero 0%nat).1
     <> (Ornaments.mounted draws_zero 0%nat).1.
Proof.
  set (s0 := (Ornaments.mounted draws_zero 0%nat).1).
  assert (H0 : Ornaments.starRef s0
               = Some {| THREE.position := (0, 9, 0);
                         THREE.rotation := (0, 0, 0);
                         THREE.scale := (1, 1, 1) |}).
  { apply mounted_star. }
  destruct (mounted_refs draws_zero 0%nat) as ((Sg & _ & _) & Pg & _).
  fold s0 in Sg, Pg.
  assert (H1 : Ornaments.starRef (Ornaments.useFrame TREE_SHAPE 0 0 s0)
               = Some {| THREE.position := (0, 14, 0);
                         THREE.rotation := (0, 0, 0);
                         THREE.scale := (0, 0, 0) |}).
  { rewrite (useFrame_star TREE_SHAPE 0 0 s0 Sg), H0.
    unfold Ornaments.useFrame. cbn [Ornaments.goldSpheresRef].
    destruct (animateMesh_poolProgress (Ornaments.goldSpheresRef s0)
                (Ornaments.goldSphereData s0) 0 0
                (targetProgressOf TREE_SHAPE) 1.0 false Sg) as [_ Pn].
    rewrite Pn, Pg, nextProgress_zero.
    cbn [fmap option_fmap option_map]. f_equal.
    unfold Ornaments.updateStar, THREE.MathUtils.lerp, THREE.setScalar,
      TREE_CONFIG.HEIGHT.
    cbn [THREE.position THREE.rotation].
    f_equal; repeat match goal with
                    | |- (_, _) = (_, _) => f_equal
                    end; lra. }
  split; [exact H0|split; [exact H1|]].
  intros Heq. rewrite Heq, H0 in H1.
  injection H1 as Hy _ _ _. lra.
Qed.
